(** * min-dalle: the DALL-E BART text encoder (models/dalle_bart_encoder_torch.py)

    A shallow embedding of the encoder's forward pass and of the module
    constructors.  Tensors carry their shape and are read through a
    multi-index; every torch operation that can raise is a function into
    [option].  Finite floating-point values are idealised as real numbers
    and the one infinite value the program creates, [-torch.inf], is the
    extra point [NegInf] of [ereal].

    The arithmetic is therefore exact: there is no rounding, no overflow
    to an infinity, no underflow to zero and no NaN.  What is proved
    identifies the values the program computes with the formulas of the
    design, and settles when a call returns and when it raises; it says
    nothing about the bits of a float32 result, which depend on how the
    torch kernels round and in which order they add. *)

From Stdlib Require Import String DecimalString.
From Stdlib Require Import List ZArith Lia Reals Lra Bool PeanoNat FunctionalExtensionality.
Import ListNotations.

Set Implicit Arguments.

(** ** Errors: a raised exception is [None] *)

Notation "x <- e ;; k" :=
  (match e with Some x => k | None => None end)
  (at level 61, e at next level, right associativity).

Definition guard (b : bool) : option unit := if b then Some tt else None.

(** ** Python integers *)

Module Py.

(** [a // b] on ints: floor division, ZeroDivisionError when [b = 0]. *)
Definition floordiv (a b : Z) : option Z :=
  if (b =? 0)%Z then None else Some (a / b)%Z.

(** [range(n)] has [max n 0] elements. *)
Definition range (n : Z) : list nat := seq 0 (Z.to_nat n).

End Py.

(** ** Tensors *)

Record tensor (A : Type) : Type := mkTensor {
  shape : list nat;
  data : list nat -> A
}.

Definition rank {A} (t : tensor A) : nat := length (shape t).

Definition numel (s : list nat) : nat := fold_right Nat.mul 1 s.

(** Row-major position of a multi-index, and its inverse. *)
Fixpoint ravel (s idx : list nat) : nat :=
  match s, idx with
  | _ :: s', i :: idx' => i * numel s' + ravel s' idx'
  | _, _ => 0
  end.

Fixpoint unravel (s : list nat) (n : nat) : list nat :=
  match s with
  | [] => []
  | _ :: s' => n / numel s' :: unravel s' (n mod numel s')
  end.

Fixpoint in_bounds (s idx : list nat) : bool :=
  match s, idx with
  | [], [] => true
  | d :: s', i :: idx' => (i <? d) && in_bounds s' idx'
  | _, _ => false
  end.

(** Every index of a shape, in row-major order. *)
Fixpoint indices (s : list nat) : list (list nat) :=
  match s with
  | [] => [[]]
  | d :: s' => flat_map (fun i => map (cons i) (indices s')) (seq 0 d)
  end.

Definition tmap {A B} (f : A -> B) (t : tensor A) : tensor B :=
  mkTensor (shape t) (fun idx => f (data t idx)).

Definition tall (t : tensor bool) : bool :=
  forallb (data t) (indices (shape t)).

Fixpoint upd {A} (i : nat) (v : A) (l : list A) : list A :=
  match l, i with
  | [], _ => []
  | _ :: l', O => v :: l'
  | x :: l', S i' => x :: upd i' v l'
  end.

Fixpoint insert_at {A} (i : nat) (v : A) (l : list A) : list A :=
  match i, l with
  | O, _ => v :: l
  | S i', x :: l' => x :: insert_at i' v l'
  | S _, [] => [v]
  end.

Fixpoint remove_at {A} (i : nat) (l : list A) : list A :=
  match l, i with
  | [], _ => []
  | _ :: l', O => l'
  | x :: l', S i' => x :: remove_at i' l'
  end.

Definition swap_dims (d0 d1 : nat) (l : list nat) : list nat :=
  upd d0 (nth d1 l 0) (upd d1 (nth d0 l 0) l).

Fixpoint shape_eqb (s1 s2 : list nat) : bool :=
  match s1, s2 with
  | [], [] => true
  | a :: s1', b :: s2' => (a =? b) && shape_eqb s1' s2'
  | _, _ => false
  end.

(** Finite sums of reals: [rsum n f = f 0 + ... + f (n-1)], added
    exactly; the order in which a kernel adds does not show. *)
Fixpoint rsum (n : nat) (f : nat -> R) : R :=
  match n with
  | O => 0%R
  | S n' => (rsum n' f + f n')%R
  end.

(** ** Extended reals: the finite values and [-inf] *)

Inductive ereal : Type :=
  | Fin (r : R)
  | NegInf.

(** A finite score stays finite, so a finite score plus [-inf] is
    [-inf]. *)
Definition eadd (x y : ereal) : ereal :=
  match x, y with
  | Fin a, Fin b => Fin (a + b)
  | _, _ => NegInf
  end.

(** [exp(-inf) = 0]; on a finite value the exact exponential, which is
    never zero. *)
Definition eexp (x : ereal) : R :=
  match x with
  | Fin a => exp a
  | NegInf => 0%R
  end.

(** ** The torch operations the encoder uses *)

Module torch.

(** [Tensor.transpose(d0, d1)]. *)
Definition transpose {A} (d0 d1 : nat) (t : tensor A) : option (tensor A) :=
  _ <- guard ((d0 <? rank t) && (d1 <? rank t)) ;;
  Some (mkTensor (swap_dims d0 d1 (shape t))
                 (fun idx => data t (swap_dims d0 d1 idx))).

(** [Tensor.unsqueeze(d)]. *)
Definition unsqueeze {A} (d : nat) (t : tensor A) : option (tensor A) :=
  _ <- guard (d <=? rank t) ;;
  Some (mkTensor (insert_at d 1 (shape t))
                 (fun idx => data t (remove_at d idx))).

(** [Tensor.squeeze(d)]: drops axis [d] when its size is 1, otherwise
    returns the tensor as it is. *)
Definition squeeze {A} (d : nat) (t : tensor A) : option (tensor A) :=
  _ <- guard (d <? rank t) ;;
  if nth d (shape t) 0 =? 1
  then Some (mkTensor (remove_at d (shape t))
                      (fun idx => data t (insert_at d 0 idx)))
  else Some t.

(** The shape a [reshape] request denotes for a tensor of [n] elements:
    at most one entry may be [-1], and it is inferred. *)
Definition infer_shape (n : nat) (dims : list Z) : option (list nat) :=
  _ <- guard (negb (existsb (fun d => d <? -1)%Z dims)) ;;
  let known := fold_right Z.mul 1%Z (filter (fun d => negb (d =? -1)%Z) dims) in
  match count_occ Z.eq_dec dims (-1)%Z with
  | 0 =>
      _ <- guard (known =? Z.of_nat n)%Z ;;
      Some (map Z.to_nat dims)
  | 1 =>
      _ <- guard (negb (known =? 0)%Z) ;;
      _ <- guard (Z.of_nat n mod known =? 0)%Z ;;
      Some (map (fun d => if (d =? -1)%Z then Z.to_nat (Z.of_nat n / known)
                          else Z.to_nat d) dims)
  | _ => None
  end.

(** [Tensor.reshape(dims)]: same elements in the same row-major order. *)
Definition reshape {A} (dims : list Z) (t : tensor A) : option (tensor A) :=
  s <- infer_shape (numel (shape t)) dims ;;
  Some (mkTensor s (fun idx => data t (unravel (shape t) (ravel s idx)))).

(** Broadcasting of two axis sizes, and of two shapes aligned at the
    last axis. *)
Definition bdim (a b : nat) : option nat :=
  if a =? b then Some a
  else if a =? 1 then Some b
  else if b =? 1 then Some a
  else None.

Fixpoint bshape_rev (r1 r2 : list nat) : option (list nat) :=
  match r1, r2 with
  | [], _ => Some r2
  | _, [] => Some r1
  | a :: r1', b :: r2' =>
      d <- bdim a b ;;
      r <- bshape_rev r1' r2' ;;
      Some (d :: r)
  end.

Definition broadcast_shapes (s1 s2 : list nat) : option (list nat) :=
  r <- bshape_rev (rev s1) (rev s2) ;;
  Some (rev r).

(** The index at which an operand of shape [s] is read when the result
    is read at [idx]. *)
Definition bindex (s idx : list nat) : list nat :=
  map (fun di => if fst di =? 1 then 0 else snd di)
      (combine s (skipn (length idx - length s) idx)).

Definition map2 {A B C} (f : A -> B -> C) (x : tensor A) (y : tensor B)
  : option (tensor C) :=
  s <- broadcast_shapes (shape x) (shape y) ;;
  Some (mkTensor s (fun idx => f (data x (bindex (shape x) idx))
                                 (data y (bindex (shape y) idx)))).

(** An in-place update [x op= y]: the result must have the shape of [x]. *)
Definition imap2 {A B} (f : A -> B -> A) (x : tensor A) (y : tensor B)
  : option (tensor A) :=
  r <- map2 f x y ;;
  _ <- guard (shape_eqb (shape r) (shape x)) ;;
  Some r.

(** [torch.where(cond, x, y)]. *)
Definition where_ {A} (cond : tensor bool) (x y : tensor A) : option (tensor A) :=
  s0 <- broadcast_shapes (shape cond) (shape x) ;;
  s <- broadcast_shapes s0 (shape y) ;;
  Some (mkTensor s (fun idx =>
    if data cond (bindex (shape cond) idx)
    then data x (bindex (shape x) idx)
    else data y (bindex (shape y) idx))).

(** A tensor filled with one value: [torch.zeros(s)], and
    [torch.ones(s) * (-torch.inf)]. *)
Definition full {A} (s : list nat) (v : A) : tensor A :=
  mkTensor s (fun _ => v).

(** [t[:, :, None, None]]. *)
Definition index_cc_NN {A} (t : tensor A) : option (tensor A) :=
  match shape t with
  | d0 :: d1 :: s' =>
      Some (mkTensor (d0 :: d1 :: 1 :: 1 :: s')
                     (fun idx => data t (remove_at 2 (remove_at 2 idx))))
  | _ => None
  end.

(** [torch.softmax(t, dim)].  Where every entry along [dim] is [-inf] torch
    returns NaN; the reals have no such value (the quotient below is then
    [0 / 0]), so what is proved about probabilities is stated for rows
    that keep a finite entry. *)
Definition softmax (t : tensor ereal) (dim : nat) : option (tensor R) :=
  _ <- guard (dim <? rank t) ;;
  Some (mkTensor (shape t) (fun idx =>
    (eexp (data t idx) /
     rsum (nth dim (shape t) 0%nat) (fun k => eexp (data t (upd dim k idx))))%R)).

(** [torch.einsum('bchq,bkhc->bkhq', x, y)]; the sizes of a shared
    subscript must broadcast. *)
Definition einsum_bchq_bkhc_bkhq (x y : tensor R) : option (tensor R) :=
  match shape x, shape y with
  | [xb; xc; xh; xq], [yb; yk; yh; yc] =>
      b <- bdim xb yb ;;
      c <- bdim xc yc ;;
      h <- bdim xh yh ;;
      Some (mkTensor [b; yk; h; xq] (fun idx =>
        match idx with
        | [ib; ik; ih; iq] =>
            rsum c (fun ic =>
              data x (bindex [xb; xc; xh; xq] [ib; ic; ih; iq]) *
              data y (bindex [yb; yk; yh; yc] [ib; ik; ih; ic]))%R
        | _ => 0%R
        end))
  | _, _ => None
  end.

(** [torch.einsum('bkhq,bchk->bchq', x, y)]. *)
Definition einsum_bkhq_bchk_bchq (x y : tensor R) : option (tensor R) :=
  match shape x, shape y with
  | [xb; xk; xh; xq], [yb; yc; yh; yk] =>
      b <- bdim xb yb ;;
      k <- bdim xk yk ;;
      h <- bdim xh yh ;;
      Some (mkTensor [b; yc; h; xq] (fun idx =>
        match idx with
        | [ib; ic; ih; iq] =>
            rsum k (fun ik =>
              data x (bindex [xb; xk; xh; xq] [ib; ik; ih; iq]) *
              data y (bindex [yb; yc; yh; yk] [ib; ic; ih; ik]))%R
        | _ => 0%R
        end))
  | _, _ => None
  end.

(** [torch.arange(n)]. *)
Definition arange (n : nat) : tensor Z :=
  mkTensor [n] (fun idx => Z.of_nat (nth 0 idx 0)).

(** [torch.stack(ts)] along a new first axis: the list must be non-empty
    and its tensors of one shape. *)
Definition stack {A} (ts : list (tensor A)) : option (tensor A) :=
  match ts with
  | [] => None
  | t0 :: _ =>
      _ <- guard (forallb (fun t => shape_eqb (shape t) (shape t0)) ts) ;;
      Some (mkTensor (length ts :: shape t0)
                     (fun idx => data (nth (hd 0 idx) ts t0) (tl idx)))
  end.

(** [Tensor.not_equal(v)]. *)
Definition not_equal (t : tensor Z) (v : Z) : tensor bool :=
  tmap (fun x => negb (x =? v)%Z) t.

End torch.

(** ** The torch.nn layers the encoder is built from

    A layer is its parameter tensors; a constructor receives the values
    its parameters start with, since the code does not determine them
    (torch draws them at random and a checkpoint later overwrites them). *)

Module nn.

Local Open Scope R_scope.

(** *** GELU: [x * Phi(x)] with [Phi] the standard Gaussian distribution
    function *)

Definition gauss_kernel (t : R) : R := exp (- (t * t) / 2).

Lemma gauss_kernel_continuity : continuity gauss_kernel.
Proof.
  unfold gauss_kernel.
  apply (continuity_comp (fun t => - (t * t) / 2) exp).
  - unfold Rdiv. apply continuity_mult.
    + apply continuity_opp.
      apply continuity_mult; apply derivable_continuous, derivable_id.
    + apply continuity_const. intros x y. reflexivity.
  - apply derivable_continuous, derivable_exp.
Qed.

Lemma gauss_kernel_integrable (a b : R) : Riemann_integrable gauss_kernel a b.
Proof.
  destruct (Rle_dec a b) as [Hab | Hab].
  - apply continuity_implies_RiemannInt;
      [exact Hab | intros x _; apply gauss_kernel_continuity].
  - apply RiemannInt_P1.
    apply continuity_implies_RiemannInt;
      [lra | intros x _; apply gauss_kernel_continuity].
Defined.

Definition Phi (x : R) : R :=
  1 / 2 + / sqrt (2 * PI) * RiemannInt (gauss_kernel_integrable 0 x).

Definition gelu (x : R) : R := x * Phi x.

Inductive GELU : Type := mkGELU.

Definition GELU_forward (_ : GELU) (x : tensor R) : tensor R := tmap gelu x.

(** *** LayerNorm over the last axis *)

Record LayerNorm : Type := mkLayerNorm {
  normalized_shape : nat;
  ln_weight : tensor R;
  ln_bias : tensor R;
  eps : R
}.

Definition mean (n : nat) (row : nat -> R) : R := rsum n row / INR n.

Definition variance (n : nat) (row : nat -> R) : R :=
  rsum n (fun i => (row i - mean n row) * (row i - mean n row)) / INR n.

Definition LayerNorm_forward (m : LayerNorm) (x : tensor R) : option (tensor R) :=
  let n := normalized_shape m in
  _ <- guard (shape_eqb (shape (ln_weight m)) [n]) ;;
  _ <- guard (shape_eqb (shape (ln_bias m)) [n]) ;;
  _ <- guard ((1 <=? rank x) && (last (shape x) 0%nat =? n)) ;;
  Some (mkTensor (shape x) (fun idx =>
    let row := fun i => data x (removelast idx ++ [i]) in
    (data x idx - mean n row) / sqrt (variance n row + eps m)
      * data (ln_weight m) [last idx 0%nat]
      + data (ln_bias m) [last idx 0%nat])).

(** *** Linear without bias: [y = x W^T] on the last axis *)

Record Linear : Type := mkLinear { fc_weight : tensor R }.

Definition Linear_forward (m : Linear) (x : tensor R) : option (tensor R) :=
  match shape (fc_weight m) with
  | [out_features; in_features] =>
      _ <- guard ((1 <=? rank x) && (last (shape x) 0%nat =? in_features)) ;;
      Some (mkTensor (removelast (shape x) ++ [out_features]) (fun idx =>
        rsum in_features (fun i =>
          data x (removelast idx ++ [i]) *
          data (fc_weight m) [last idx 0%nat; i])))
  | _ => None
  end.

(** *** Conv2d with a 1x1 kernel and no bias: a linear map on the
    channel axis of a [batch, channel, height, width] tensor; the kernel
    must fit, so an input of height or width zero is refused *)

Record Conv2d : Type := mkConv2d { conv_weight : tensor R }.

Definition Conv2d_forward (m : Conv2d) (x : tensor R) : option (tensor R) :=
  match shape (conv_weight m), shape x with
  | [out_channels; in_channels; 1%nat; 1%nat], [xb; xc; xh; xw] =>
      _ <- guard ((xc =? in_channels) && (1 <=? xh) && (1 <=? xw)) ;;
      Some (mkTensor [xb; out_channels; xh; xw] (fun idx =>
        match idx with
        | [ib; oc; ih; iw] =>
            rsum in_channels (fun ic =>
              data (conv_weight m) [oc; ic; 0%nat; 0%nat] *
              data x [ib; ic; ih; iw])
        | _ => 0
        end))
  | _, _ => None
  end.

(** *** Embedding: a row of the table per index *)

Record Embedding : Type := mkEmbedding { emb_weight : tensor R }.

Definition Embedding_forward (m : Embedding) (ids : tensor Z) : option (tensor R) :=
  match shape (emb_weight m) with
  | [num_embeddings; embedding_dim] =>
      _ <- guard (tall (tmap (fun i => (0 <=? i)%Z && (i <? Z.of_nat num_embeddings)%Z) ids)) ;;
      Some (mkTensor (shape ids ++ [embedding_dim]) (fun idx =>
        data (emb_weight m) [Z.to_nat (data ids (removelast idx)); last idx 0%nat]))
  | _ => None
  end.

(** *** Constructors: a negative size is refused when the parameter
    tensor is allocated.  A size the allocator cannot serve is refused
    by torch as well; that limit belongs to the machine and is not
    modelled, so a constructor here returns for every non-negative
    size. *)

Definition new_LayerNorm (n : Z) (w b : list nat -> R) : option LayerNorm :=
  _ <- guard (0 <=? n)%Z ;;
  Some (mkLayerNorm (Z.to_nat n) (mkTensor [Z.to_nat n] w)
                    (mkTensor [Z.to_nat n] b) (1 / 100000)).

Definition new_Linear (in_features out_features : Z) (w : list nat -> R)
  : option Linear :=
  _ <- guard ((0 <=? in_features)%Z && (0 <=? out_features)%Z) ;;
  Some (mkLinear (mkTensor [Z.to_nat out_features; Z.to_nat in_features] w)).

Definition new_Conv2d_1x1 (in_channels out_channels : Z) (w : list nat -> R)
  : option Conv2d :=
  _ <- guard ((0 <=? in_channels)%Z && (0 <=? out_channels)%Z) ;;
  Some (mkConv2d (mkTensor [Z.to_nat out_channels; Z.to_nat in_channels; 1%nat; 1%nat] w)).

Definition new_Embedding (num_embeddings embedding_dim : Z) (w : list nat -> R)
  : option Embedding :=
  _ <- guard ((0 <=? num_embeddings)%Z && (0 <=? embedding_dim)%Z) ;;
  Some (mkEmbedding (mkTensor [Z.to_nat num_embeddings; Z.to_nat embedding_dim] w)).

End nn.

(** ** Initial parameter values, keyed by the parameter's dotted name *)

Definition params : Type := String.string -> list nat -> R.

Definition sub (prefix : String.string) (ps : params) : params :=
  fun name => ps (String.append prefix (String.append "."%string name)).

Definition layer_name (i : nat) : String.string :=
  String.append "layers."%string (DecimalString.NilEmpty.string_of_uint (Nat.to_uint i)).

(** [[f x for x in xs]]: the first exception ends the comprehension. *)
Fixpoint comprehension {A B} (f : A -> option B) (xs : list A) : option (list B) :=
  match xs with
  | [] => Some []
  | x :: xs' =>
      y <- f x ;;
      ys <- comprehension f xs' ;;
      Some (y :: ys)
  end.

(** ** class GLUTorch *)

Record GLUTorch : Type := mkGLUTorch {
  gelu : nn.GELU;
  ln0 : nn.LayerNorm;
  ln1 : nn.LayerNorm;
  fc0 : nn.Linear;
  fc1 : nn.Linear;
  fc2 : nn.Linear
}.

Definition GLUTorch_init (count_in_out count_middle : Z) (ps : params)
  : option GLUTorch :=
  let gelu := nn.mkGELU in
  ln0 <- nn.new_LayerNorm count_in_out (ps "ln0.weight"%string) (ps "ln0.bias"%string) ;;
  ln1 <- nn.new_LayerNorm count_middle (ps "ln1.weight"%string) (ps "ln1.bias"%string) ;;
  fc0 <- nn.new_Linear count_in_out count_middle (ps "fc0.weight"%string) ;;
  fc1 <- nn.new_Linear count_in_out count_middle (ps "fc1.weight"%string) ;;
  fc2 <- nn.new_Linear count_middle count_in_out (ps "fc2.weight"%string) ;;
  Some (mkGLUTorch gelu ln0 ln1 fc0 fc1 fc2).

Definition GLUTorch_forward (self : GLUTorch) (z : tensor R) : option (tensor R) :=
  z <- nn.LayerNorm_forward (ln0 self) z ;;
  w <- nn.Linear_forward (fc0 self) z ;;
  let w := nn.GELU_forward (gelu self) w in
  v <- nn.Linear_forward (fc1 self) z ;;
  wv <- torch.map2 Rmult w v ;;
  z <- nn.LayerNorm_forward (ln1 self) wv ;;
  z <- nn.Linear_forward (fc2 self) z ;;
  Some z.

(** ** class AttentionTorch *)

Record AttentionTorch : Type := mkAttentionTorch {
  head_count : Z;
  embed_count : Z;
  head_dim : Z;
  k_proj : nn.Conv2d;
  v_proj : nn.Conv2d;
  q_proj : nn.Conv2d;
  out_proj : nn.Conv2d
}.

Definition AttentionTorch_init (head_count embed_count : Z) (ps : params)
  : option AttentionTorch :=
  head_dim <- Py.floordiv embed_count head_count ;;
  k_proj <- nn.new_Conv2d_1x1 embed_count embed_count (ps "k_proj.weight"%string) ;;
  v_proj <- nn.new_Conv2d_1x1 embed_count embed_count (ps "v_proj.weight"%string) ;;
  q_proj <- nn.new_Conv2d_1x1 embed_count embed_count (ps "q_proj.weight"%string) ;;
  out_proj <- nn.new_Conv2d_1x1 embed_count embed_count (ps "out_proj.weight"%string) ;;
  Some (mkAttentionTorch head_count embed_count head_dim k_proj v_proj q_proj out_proj).

(** [head_dim ** 0.5] for the non-negative [head_dim] that reaches it. *)
Definition pow_half (n : Z) : R := sqrt (IZR n).

(** The values the local variables of [forward] hold along the way:
    [attention_weights] after the einsum, after the bias is added and
    after the softmax, [hidden_state] before the output projection, and
    the returned tensor. *)
Record attention_locals : Type := mkLocals {
  scores : tensor R;
  biased : tensor ereal;
  probabilities : tensor R;
  weighted : tensor R;
  returned : tensor R
}.

Definition AttentionTorch_run (self : AttentionTorch)
    (keys values queries : tensor R) (attention_mask : tensor bool)
  : option attention_locals :=
  batch_count <- nth_error (shape keys) 0 ;;
  (* b(hc)1q -> bqhc *)
  keys <- torch.transpose 1 3 keys ;;
  keys <- torch.reshape
            (map Z.of_nat (firstn 2 (shape keys)) ++ [head_count self; (-1)%Z]) keys ;;
  (* b(hc)1q -> bchq *)
  let shape_ := [Z.of_nat batch_count; head_count self; head_dim self; (-1)%Z] in
  values <- torch.reshape shape_ values ;;
  values <- torch.transpose 1 2 values ;;
  queries <- torch.reshape shape_ queries ;;
  queries <- torch.transpose 1 2 queries ;;
  attention_bias <- torch.where_ attention_mask
                      (torch.full [1; 1] (Fin 0))
                      (torch.full [1; 1] NegInf) ;;
  attention_weights0 <- torch.einsum_bchq_bkhc_bkhq
                          (tmap (fun x => x / pow_half (head_dim self))%R queries)
                          keys ;;
  attention_bias <- torch.index_cc_NN attention_bias ;;
  attention_weights1 <- torch.imap2 eadd (tmap Fin attention_weights0) attention_bias ;;
  attention_weights2 <- torch.softmax attention_weights1 1 ;;
  hidden_state <- torch.einsum_bkhq_bchk_bchq attention_weights2 values ;;
  (* bchq -> b(hc)1q *)
  hidden_state <- torch.transpose 1 2 hidden_state ;;
  hidden_state <- torch.reshape
                    [Z.of_nat batch_count; embed_count self; 1%Z; (-1)%Z] hidden_state ;;
  hidden_state' <- nn.Conv2d_forward (out_proj self) hidden_state ;;
  Some (mkLocals attention_weights0 attention_weights1 attention_weights2
                 hidden_state hidden_state').

Definition AttentionTorch_forward (self : AttentionTorch)
    (keys values queries : tensor R) (attention_mask : tensor bool)
  : option (tensor R) :=
  locals <- AttentionTorch_run self keys values queries attention_mask ;;
  Some (returned locals).

(** ** class EncoderSelfAttentionTorch(AttentionTorch) *)

Definition EncoderSelfAttentionTorch : Type := AttentionTorch.

Definition EncoderSelfAttentionTorch_init : Z -> Z -> params -> option EncoderSelfAttentionTorch :=
  AttentionTorch_init.

Definition EncoderSelfAttentionTorch_forward (self : EncoderSelfAttentionTorch)
    (encoder_state : tensor R) (attention_mask : tensor bool)
  : option (tensor R) :=
  encoder_state <- torch.transpose 1 2 encoder_state ;;
  encoder_state <- torch.unsqueeze 2 encoder_state ;;
  keys <- nn.Conv2d_forward (k_proj self) encoder_state ;;
  values <- nn.Conv2d_forward (v_proj self) encoder_state ;;
  queries <- nn.Conv2d_forward (q_proj self) encoder_state ;;
  AttentionTorch_forward self keys values queries attention_mask.

(** ** class EncoderLayerTorch *)

Record EncoderLayerTorch : Type := mkEncoderLayerTorch {
  pre_self_attn_layer_norm : nn.LayerNorm;
  self_attn : EncoderSelfAttentionTorch;
  self_attn_layer_norm : nn.LayerNorm;
  glu : GLUTorch
}.

Definition EncoderLayerTorch_init (embed_count head_count glu_embed_count : Z)
    (ps : params) : option EncoderLayerTorch :=
  pre_self_attn_layer_norm <-
    nn.new_LayerNorm embed_count (ps "pre_self_attn_layer_norm.weight"%string)
                                 (ps "pre_self_attn_layer_norm.bias"%string) ;;
  self_attn <- EncoderSelfAttentionTorch_init head_count embed_count (sub "self_attn"%string ps) ;;
  self_attn_layer_norm <-
    nn.new_LayerNorm embed_count (ps "self_attn_layer_norm.weight"%string)
                                 (ps "self_attn_layer_norm.bias"%string) ;;
  glu <- GLUTorch_init embed_count glu_embed_count (sub "glu"%string ps) ;;
  Some (mkEncoderLayerTorch pre_self_attn_layer_norm self_attn self_attn_layer_norm glu).

Definition EncoderLayerTorch_forward (self : EncoderLayerTorch)
    (encoder_state : tensor R) (attention_mask : tensor bool)
  : option (tensor R) :=
  let residual := encoder_state in
  encoder_state <- nn.LayerNorm_forward (pre_self_attn_layer_norm self) encoder_state ;;
  encoder_state <- EncoderSelfAttentionTorch_forward (self_attn self) encoder_state attention_mask ;;
  encoder_state <- torch.transpose 1 3 encoder_state ;;
  encoder_state <- torch.squeeze 2 encoder_state ;;
  encoder_state <- nn.LayerNorm_forward (self_attn_layer_norm self) encoder_state ;;
  encoder_state <- torch.map2 Rplus residual encoder_state ;;
  let residual := encoder_state in
  encoder_state <- GLUTorch_forward (glu self) encoder_state ;;
  encoder_state <- torch.map2 Rplus residual encoder_state ;;
  Some encoder_state.

(** ** class DalleBartEncoderTorch *)

Record DalleBartEncoderTorch : Type := mkDalleBartEncoderTorch {
  embed_tokens : nn.Embedding;
  embed_positions : nn.Embedding;
  layers : list EncoderLayerTorch;
  layernorm_embedding : nn.LayerNorm;
  final_ln : nn.LayerNorm
}.

Definition DalleBartEncoderTorch_init
    (layer_count embed_count attention_head_count
     text_vocab_count text_token_count glu_embed_count : Z) (ps : params)
  : option DalleBartEncoderTorch :=
  embed_tokens <- nn.new_Embedding text_vocab_count embed_count (ps "embed_tokens.weight"%string) ;;
  embed_positions <- nn.new_Embedding text_token_count embed_count (ps "embed_positions.weight"%string) ;;
  layers <- comprehension
              (fun i => EncoderLayerTorch_init embed_count attention_head_count
                          glu_embed_count (sub (layer_name i) ps))
              (Py.range layer_count) ;;
  layernorm_embedding <-
    nn.new_LayerNorm embed_count (ps "layernorm_embedding.weight"%string)
                                 (ps "layernorm_embedding.bias"%string) ;;
  final_ln <- nn.new_LayerNorm embed_count (ps "final_ln.weight"%string) (ps "final_ln.bias"%string) ;;
  Some (mkDalleBartEncoderTorch embed_tokens embed_positions layers
                                layernorm_embedding final_ln).

(** [for layer in self.layers: encoder_state = layer.forward(encoder_state, attention_mask)] *)
Fixpoint run_layers (ls : list EncoderLayerTorch) (encoder_state : tensor R)
    (attention_mask : tensor bool) : option (tensor R) :=
  match ls with
  | [] => Some encoder_state
  | layer :: ls' =>
      encoder_state <- EncoderLayerTorch_forward layer encoder_state attention_mask ;;
      run_layers ls' encoder_state attention_mask
  end.

Definition DalleBartEncoderTorch_forward (self : DalleBartEncoderTorch)
    (text_tokens : tensor Z) : option (tensor R) :=
  let attention_mask := torch.not_equal text_tokens 1 in
  match shape text_tokens with
  | [batch_count; token_count] =>
      pose_tokens <- torch.stack (repeat (torch.arange token_count) batch_count) ;;
      tok <- nn.Embedding_forward (embed_tokens self) text_tokens ;;
      pos <- nn.Embedding_forward (embed_positions self) pose_tokens ;;
      encoder_state <- torch.map2 Rplus tok pos ;;
      encoder_state <- nn.LayerNorm_forward (layernorm_embedding self) encoder_state ;;
      encoder_state <- run_layers (layers self) encoder_state attention_mask ;;
      encoder_state <- nn.LayerNorm_forward (final_ln self) encoder_state ;;
      Some encoder_state
  | _ => None
  end.

(** ** The computation in the words of the design (sections 4.1 - 4.5)

    One batch row at a time: a hidden state is a function from position
    and channel to a real, a mask a function from position to [bool]. *)

Module Ref.

Local Open Scope R_scope.

Definition dot (n : nat) (u v : nat -> R) : R := rsum n (fun c => u c * v c).

(** 4.1: [(x - mu) / sqrt(sigma^2 + eps) * scale + shift]. *)
Definition layer_norm (m : nn.LayerNorm) (x : nat -> R) : nat -> R :=
  let n := nn.normalized_shape m in
  let mu := rsum n x / INR n in
  let var := rsum n (fun i => (x i - mu) * (x i - mu)) / INR n in
  fun o => (x o - mu) / sqrt (var + nn.eps m) * data (nn.ln_weight m) [o]
           + data (nn.ln_bias m) [o].

(** A linear map without bias from [n] channels. *)
Definition linear (m : nn.Linear) (n : nat) (x : nat -> R) : nat -> R :=
  fun o => dot n x (fun i => data (nn.fc_weight m) [o; i]).

(** 4.2: the gated feed-forward block on one position. *)
Definition gated_feed_forward (m : GLUTorch) (embed_dim glu_embed_dim : nat) (x : nat -> R)
  : nat -> R :=
  let normalized := layer_norm (ln0 m) x in
  let branch_a := linear (fc0 m) embed_dim normalized in
  let branch_b := linear (fc1 m) embed_dim normalized in
  let gated := fun j => nn.gelu (branch_a j) * branch_b j in
  let normalized2 := layer_norm (ln1 m) gated in
  linear (fc2 m) glu_embed_dim normalized2.

(** 4.3 step 1: a pointwise linear map of the channels of each position. *)
Definition project (m : nn.Conv2d) (n : nat) (x : nat -> nat -> R)
  : nat -> nat -> R :=
  fun pos o => rsum n (fun i => data (nn.conv_weight m) [o; i; 0%nat; 0%nat] * x pos i).

(** 4.3 step 2: the vector of head [h] at a position. *)
Definition head (head_dim h : nat) (x : nat -> R) : nat -> R :=
  fun c => x (h * head_dim + c)%nat.

(** 4.3 step 3: [score[i,j] = (q_i . k_j) / sqrt(head_dim)]. *)
Definition score (head_dim : nat) (q k : nat -> nat -> R) (h i j : nat) : R :=
  dot head_dim (head head_dim h (q i)) (head head_dim h (k j)) / sqrt (INR head_dim).

(** 4.3 step 4: a masked key column is negative infinity. *)
Definition masked (mask : nat -> bool) (s : nat -> R) : nat -> ereal :=
  fun j => if mask j then Fin (s j) else NegInf.

(** 4.3 step 5: softmax over the key axis. *)
Definition softmax (n : nat) (s : nat -> ereal) : nat -> R :=
  fun j => eexp (s j) / rsum n (fun j' => eexp (s j')).

Definition prob (head_dim n : nat) (mask : nat -> bool) (q k : nat -> nat -> R)
    (h i : nat) : nat -> R :=
  softmax n (masked mask (score head_dim q k h i)).

(** 4.3 step 6: the weighted sum of the value vectors, per head. *)
Definition attend (head_dim n : nat) (mask : nat -> bool)
    (q k v : nat -> nat -> R) : nat -> nat -> R :=
  fun i ch =>
    let h := (ch / head_dim)%nat in
    rsum n (fun j => prob head_dim n mask q k h i j * v j ch).

(** 4.3 steps 6 - 7 on already projected keys, values and queries. *)
Definition attention (m : AttentionTorch) (embed_dim head_dim n : nat)
    (mask : nat -> bool) (k v q : nat -> nat -> R) : nat -> nat -> R :=
  project (out_proj m) embed_dim (attend head_dim n mask q k v).

(** 4.3 on one input: queries, keys and values all come from [x]. *)
Definition self_attention (m : AttentionTorch) (embed_dim head_dim n : nat)
    (mask : nat -> bool) (x : nat -> nat -> R) : nat -> nat -> R :=
  attention m embed_dim head_dim n mask
    (project (k_proj m) embed_dim x)
    (project (v_proj m) embed_dim x)
    (project (q_proj m) embed_dim x).

(** 4.4: the encoder layer with its two residual connections. *)
Definition encoder_layer (m : EncoderLayerTorch)
    (embed_dim head_dim glu_embed_dim n : nat)
    (mask : nat -> bool) (input : nat -> nat -> R) : nat -> nat -> R :=
  let residual := input in
  let normalized := fun i => layer_norm (pre_self_attn_layer_norm m) (input i) in
  let attended := self_attention (self_attn m) embed_dim head_dim n mask normalized in
  let attended := fun i => layer_norm (self_attn_layer_norm m) (attended i) in
  let output := fun i o => residual i o + attended i o in
  let residual2 := output in
  let output := fun i => gated_feed_forward (glu m) embed_dim glu_embed_dim (output i) in
  fun i o => residual2 i o + output i o.

Fixpoint encoder_layers (ms : list EncoderLayerTorch)
    (embed_dim head_dim glu_embed_dim n : nat)
    (mask : nat -> bool) (hidden : nat -> nat -> R) : nat -> nat -> R :=
  match ms with
  | [] => hidden
  | m :: ms' =>
      encoder_layers ms' embed_dim head_dim glu_embed_dim n mask
        (encoder_layer m embed_dim head_dim glu_embed_dim n mask hidden)
  end.

Definition pad_id : Z := 1.

(** 4.5: the text encoder on one row of token ids. *)
Definition encode (m : DalleBartEncoderTorch)
    (embed_dim head_dim glu_embed_dim n : nat)
    (tokens : nat -> Z) : nat -> nat -> R :=
  let mask := fun j => negb (tokens j =? pad_id)%Z in
  let positions := fun t : nat => t in
  let hidden := fun t o =>
    data (nn.emb_weight (embed_tokens m)) [Z.to_nat (tokens t); o]
    + data (nn.emb_weight (embed_positions m)) [positions t; o] in
  let hidden := fun t => layer_norm (layernorm_embedding m) (hidden t) in
  let hidden := encoder_layers (layers m) embed_dim head_dim glu_embed_dim n mask hidden in
  fun t => layer_norm (final_ln m) (hidden t).

End Ref.

(** ** One batch row of a tensor

    A hidden state [batch, position, channel], the attention layout
    [batch, channel, 1, position], a mask or token batch [batch, position]. *)

Definition hidden_row (t : tensor R) (b0 : nat) : nat -> nat -> R :=
  fun pos ch => data t [b0; pos; ch].

Definition channels_first (t : tensor R) (b0 : nat) : nat -> nat -> R :=
  fun pos ch => data t [b0; ch; 0; pos].

Definition mask_row (t : tensor bool) (b0 : nat) : nat -> bool :=
  fun j => data t [b0; j].

Definition token_row (t : tensor Z) (b0 : nat) : nat -> Z :=
  fun j => data t [b0; j].

(** Token ids that index a table of [vocab] rows: the test
    [nn.Embedding_forward] makes before it reads the table. *)
Definition valid_tokens (vocab : nat) (t : tensor Z) : bool :=
  tall (tmap (fun i => (0 <=? i)%Z && (i <? Z.of_nat vocab)%Z) t).



(** Two hidden states that agree on the first [n] positions and on the
    [embed_dim] channels. *)
Definition agree (embed_dim n : nat) (x x' : nat -> nat -> R) : Prop :=
  forall t c, t < n -> c < embed_dim -> x' t c = x t c.

(** ** Well-formed modules: the parameter shapes the constructors give *)

Definition ln_ok (n : nat) (m : nn.LayerNorm) : Prop :=
  nn.normalized_shape m = n /\ shape (nn.ln_weight m) = [n] /\ shape (nn.ln_bias m) = [n].

Definition fc_ok (n_in n_out : nat) (m : nn.Linear) : Prop :=
  shape (nn.fc_weight m) = [n_out; n_in].

Definition conv_ok (n_in n_out : nat) (m : nn.Conv2d) : Prop :=
  shape (nn.conv_weight m) = [n_out; n_in; 1; 1].

Definition emb_ok (num dim : nat) (m : nn.Embedding) : Prop :=
  shape (nn.emb_weight m) = [num; dim].

Definition glu_ok (embed_dim glu_embed_dim : nat) (m : GLUTorch) : Prop :=
  ln_ok embed_dim (ln0 m) /\ ln_ok glu_embed_dim (ln1 m) /\
  fc_ok embed_dim glu_embed_dim (fc0 m) /\ fc_ok embed_dim glu_embed_dim (fc1 m) /\
  fc_ok glu_embed_dim embed_dim (fc2 m).

(** [embed_dim = heads * head_dim] with both factors positive. *)
Definition attention_ok (heads hdim : nat) (m : AttentionTorch) : Prop :=
  0 < heads /\ 0 < hdim /\
  head_count m = Z.of_nat heads /\ head_dim m = Z.of_nat hdim /\
  embed_count m = Z.of_nat (heads * hdim) /\
  conv_ok (heads * hdim) (heads * hdim) (k_proj m) /\
  conv_ok (heads * hdim) (heads * hdim) (v_proj m) /\
  conv_ok (heads * hdim) (heads * hdim) (q_proj m) /\
  conv_ok (heads * hdim) (heads * hdim) (out_proj m).

Definition layer_ok (heads hdim glu_embed_dim : nat) (m : EncoderLayerTorch) : Prop :=
  ln_ok (heads * hdim) (pre_self_attn_layer_norm m) /\
  attention_ok heads hdim (self_attn m) /\
  ln_ok (heads * hdim) (self_attn_layer_norm m) /\
  glu_ok (heads * hdim) glu_embed_dim (glu m).

Definition encoder_ok (heads hdim glu_embed_dim vocab max_positions : nat)
    (m : DalleBartEncoderTorch) : Prop :=
  emb_ok vocab (heads * hdim) (embed_tokens m) /\
  emb_ok max_positions (heads * hdim) (embed_positions m) /\
  Forall (layer_ok heads hdim glu_embed_dim) (layers m) /\
  ln_ok (heads * hdim) (layernorm_embedding m) /\
  ln_ok (heads * hdim) (final_ln m).

(** ** A small encoder: the scenario of the design's section 8

    [embed_dim = 8], two heads of four channels, [glu_embed_dim = 16],
    one layer, a vocabulary of 16 ids and room for 8 positions; every
    weight is 1, every bias 0. *)

Module Example.

Definition ones (s : list nat) : tensor R := mkTensor s (fun _ => 1%R).
Definition zeros (s : list nat) : tensor R := mkTensor s (fun _ => 0%R).

Definition ln (n : nat) : nn.LayerNorm :=
  nn.mkLayerNorm n (ones [n]) (zeros [n]) (1 / 100000)%R.

Definition glu : GLUTorch :=
  mkGLUTorch nn.mkGELU (ln 8) (ln 16)
    (nn.mkLinear (ones [16; 8])) (nn.mkLinear (ones [16; 8]))
    (nn.mkLinear (ones [8; 16])).

Definition conv : nn.Conv2d := nn.mkConv2d (ones [8; 8; 1; 1]).

Definition attention : AttentionTorch := mkAttentionTorch 2 8 4 conv conv conv conv.

Definition layer : EncoderLayerTorch := mkEncoderLayerTorch (ln 8) attention (ln 8) glu.

Definition encoder : DalleBartEncoderTorch :=
  mkDalleBartEncoderTorch (nn.mkEmbedding (ones [16; 8]))
    (nn.mkEmbedding (ones [8; 8])) [layer] (ln 8) (ln 8).

(** One row of tokens. *)
Definition row (ids : list Z) : tensor Z :=
  mkTensor [1; length ids] (fun idx => nth (nth 1 idx 0) ids 0%Z).

(** tokens = [5, 9, 1, 1]: the last two are pad. *)
Definition tokens : tensor Z := row [5; 9; 1; 1]%Z.

Definition mask : tensor bool := torch.not_equal tokens 1.

(** A hidden state [1, 4, 8] and its attention layout [1, 8, 1, 4]. *)
Definition hidden : tensor R := ones [1; 4; 8].
Definition projected : tensor R := ones [1; 8; 1; 4].



(** Initial parameter values for the constructors. *)
Definition initial : params := fun _ _ => 0%R.

(** The attention module the constructor returns for two heads and eight
    channels, from the initial values [initial]. *)
Definition attention0 : AttentionTorch :=
  mkAttentionTorch 2 8 4
    (nn.mkConv2d (mkTensor [8; 8; 1; 1] (initial "k_proj.weight"%string)))
    (nn.mkConv2d (mkTensor [8; 8; 1; 1] (initial "v_proj.weight"%string)))
    (nn.mkConv2d (mkTensor [8; 8; 1; 1] (initial "q_proj.weight"%string)))
    (nn.mkConv2d (mkTensor [8; 8; 1; 1] (initial "out_proj.weight"%string))).

(** The encoder the constructor returns for one layer, five channels and
    two heads. *)
Definition odd_encoder : DalleBartEncoderTorch :=
  match DalleBartEncoderTorch_init 1 5 2 16 8 16 initial with
  | Some m => m
  | None => encoder
  end.

(** Queries for three positions. *)
Definition queries3 : tensor R := ones [1; 8; 1; 3].

End Example.

(** * Properties *)

Unset Implicit Arguments.

(** ** Sums *)

Lemma rsum_ext (n : nat) (f g : nat -> R) :
  (forall i, i < n -> f i = g i) -> rsum n f = rsum n g.
Proof.
  induction n as [|n IH]; intros E; simpl; [reflexivity|].
  rewrite IH by (intros i Hi; apply E; lia).
  rewrite (E n) by lia. reflexivity.
Qed.

Lemma rsum_zero (n : nat) (f : nat -> R) :
  (forall i, i < n -> f i = 0%R) -> rsum n f = 0%R.
Proof.
  induction n as [|n IH]; intros E; simpl; [reflexivity|].
  rewrite IH by (intros i Hi; apply E; lia).
  rewrite (E n) by lia. lra.
Qed.

Lemma rsum_scal_r (n : nat) (f : nat -> R) (c : R) :
  rsum n (fun i => f i * c)%R = (rsum n f * c)%R.
Proof.
  induction n as [|n IH]; simpl; [lra|]. rewrite IH. lra.
Qed.

Lemma rsum_scal_l (n : nat) (f : nat -> R) (c : R) :
  rsum n (fun i => c * f i)%R = (c * rsum n f)%R.
Proof.
  induction n as [|n IH]; simpl; [lra|]. rewrite IH. lra.
Qed.

Lemma rsum_plus (n : nat) (f g : nat -> R) :
  rsum n (fun i => f i + g i)%R = (rsum n f + rsum n g)%R.
Proof.
  induction n as [|n IH]; simpl; [lra|]. rewrite IH. lra.
Qed.

Lemma rsum_app (n p : nat) (f : nat -> R) :
  rsum (n + p) f = (rsum n f + rsum p (fun i => f (n + i)%nat))%R.
Proof.
  induction p as [|p IH]; simpl.
  - rewrite Nat.add_0_r. lra.
  - rewrite Nat.add_succ_r. simpl. rewrite IH. lra.
Qed.




(** ** Shapes, indices and broadcasting *)

Lemma shape_eqb_refl (s : list nat) : shape_eqb s s = true.
Proof. induction s; simpl; [reflexivity|]. now rewrite Nat.eqb_refl. Qed.

Lemma shape_eqb_eq (s1 s2 : list nat) : shape_eqb s1 s2 = true -> s1 = s2.
Proof.
  revert s2; induction s1 as [|a s1 IH]; intros [|b s2] H; simpl in H;
    try discriminate; [reflexivity|].
  apply andb_prop in H as [H1 H2]. apply Nat.eqb_eq in H1. f_equal; auto.
Qed.

Lemma bdim_refl (a : nat) : torch.bdim a a = Some a.
Proof. unfold torch.bdim. now rewrite Nat.eqb_refl. Qed.

Lemma bdim_1_l (a : nat) : torch.bdim 1 a = Some a.
Proof.
  unfold torch.bdim. destruct (1 =? a) eqn:E; [|reflexivity].
  apply Nat.eqb_eq in E. now subst.
Qed.

Lemma bdim_1_r (a : nat) : torch.bdim a 1 = Some a.
Proof.
  unfold torch.bdim. destruct (a =? 1) eqn:E; reflexivity.
Qed.

Lemma bshape_rev_refl (r : list nat) : torch.bshape_rev r r = Some r.
Proof.
  induction r as [|a r IH]; simpl; [reflexivity|].
  now rewrite bdim_refl, IH.
Qed.

Lemma broadcast_shapes_refl (s : list nat) : torch.broadcast_shapes s s = Some s.
Proof.
  unfold torch.broadcast_shapes. now rewrite bshape_rev_refl, rev_involutive.
Qed.

Lemma in_bounds_length (s idx : list nat) :
  in_bounds s idx = true -> length idx = length s.
Proof.
  revert idx; induction s as [|d s IH]; intros [|i idx] H; simpl in *;
    try discriminate; [reflexivity|].
  apply andb_prop in H as [_ H]. f_equal. auto.
Qed.

Lemma bindex_id (s idx : list nat) :
  in_bounds s idx = true -> torch.bindex s idx = idx.
Proof.
  intros H. unfold torch.bindex.
  rewrite (in_bounds_length _ _ H), Nat.sub_diag. simpl.
  revert idx H; induction s as [|d s IH]; intros [|i idx] H; simpl in *;
    try discriminate; [reflexivity|].
  apply andb_prop in H as [H1 H2]. apply Nat.ltb_lt in H1.
  rewrite IH by assumption. f_equal.
  destruct (d =? 1) eqn:E; [|reflexivity].
  apply Nat.eqb_eq in E. lia.
Qed.

Lemma in_bounds_app (s idx : list nat) (d i : nat) :
  in_bounds s idx = true -> i < d -> in_bounds (s ++ [d]) (idx ++ [i]) = true.
Proof.
  revert idx; induction s as [|a s IH]; intros [|j idx] H Hi; simpl in *;
    try discriminate.
  - apply Nat.ltb_lt in Hi. now rewrite Hi.
  - apply andb_prop in H as [H1 H2]. rewrite H1. simpl. auto.
Qed.

Lemma in_bounds_app_inv (s idx : list nat) (d i : nat) :
  in_bounds (s ++ [d]) (idx ++ [i]) = true -> in_bounds s idx = true /\ i < d.
Proof.
  revert idx; induction s as [|a s IH]; intros [|j idx] H; simpl in *.
  - rewrite andb_true_r in H. apply Nat.ltb_lt in H. auto.
  - destruct idx; simpl in H; apply andb_prop in H as [_ H]; discriminate.
  - destruct s; simpl in H; apply andb_prop in H as [_ H]; discriminate.
  - apply andb_prop in H as [H1 H2]. apply IH in H2 as [H2 H3].
    rewrite H1, H2. auto.
Qed.

Lemma indices_in_bounds (s idx : list nat) :
  In idx (indices s) <-> in_bounds s idx = true.
Proof.
  revert idx; induction s as [|d s IH]; intros idx; simpl.
  - split.
    + intros [<-|[]]. reflexivity.
    + destruct idx; [auto | discriminate].
  - rewrite in_flat_map. split.
    + intros (i & Hi & Hin). apply in_map_iff in Hin as (idx' & <- & Hin).
      apply in_seq in Hi. apply IH in Hin. rewrite Hin, andb_true_r.
      apply Nat.ltb_lt. lia.
    + destruct idx as [|i idx]; [discriminate|]. intros H.
      apply andb_prop in H as [H1 H2]. apply Nat.ltb_lt in H1.
      exists i. split; [apply in_seq; lia|].
      apply in_map. now apply IH.
Qed.

Lemma tall_spec (t : tensor bool) :
  tall t = true <-> (forall idx, in_bounds (shape t) idx = true -> data t idx = true).
Proof.
  unfold tall. rewrite forallb_forall. split; intros H idx Hi; apply H.
  - now apply indices_in_bounds.
  - now apply indices_in_bounds.
Qed.

(** ** The layers, one position at a time *)

Lemma LayerNorm_forward_spec (m : nn.LayerNorm) (n : nat) (x : tensor R)
    (pre : list nat) :
  ln_ok n m -> shape x = pre ++ [n] ->
  exists out,
    nn.LayerNorm_forward m x = Some out /\
    shape out = pre ++ [n] /\
    forall ipre o,
      data out (ipre ++ [o]) = Ref.layer_norm m (fun i => data x (ipre ++ [i])) o.
Proof.
  intros (Hn & Hw & Hb) Hx. unfold nn.LayerNorm_forward.
  rewrite Hw, Hb, Hn, !shape_eqb_refl. simpl.
  unfold rank. rewrite Hx, last_last, Nat.eqb_refl, length_app, Nat.add_1_r.
  simpl. eexists. split; [reflexivity|]. split; [reflexivity|].
  intros ipre o. simpl. rewrite removelast_last, last_last.
  unfold Ref.layer_norm, nn.mean, nn.variance. rewrite Hn. reflexivity.
Qed.

Lemma Linear_forward_spec (m : nn.Linear) (n_in n_out : nat) (x : tensor R)
    (pre : list nat) :
  fc_ok n_in n_out m -> shape x = pre ++ [n_in] ->
  exists out,
    nn.Linear_forward m x = Some out /\
    shape out = pre ++ [n_out] /\
    forall ipre o,
      data out (ipre ++ [o]) = Ref.linear m n_in (fun i => data x (ipre ++ [i])) o.
Proof.
  intros Hw Hx. unfold nn.Linear_forward. red in Hw. rewrite Hw.
  unfold rank.
  rewrite Hx, last_last, Nat.eqb_refl, length_app, removelast_last, Nat.add_1_r.
  simpl. eexists. split; [reflexivity|]. split; [reflexivity|].
  intros ipre o. simpl. rewrite removelast_last, last_last. reflexivity.
Qed.

Lemma map2_same {A B C} (f : A -> B -> C) (x : tensor A) (y : tensor B)
    (s : list nat) :
  shape x = s -> shape y = s ->
  exists out,
    torch.map2 f x y = Some out /\
    shape out = s /\
    forall idx, in_bounds s idx = true ->
      data out idx = f (data x idx) (data y idx).
Proof.
  intros Hx Hy. unfold torch.map2. rewrite Hx, Hy, broadcast_shapes_refl.
  eexists. split; [reflexivity|]. split; [reflexivity|].
  intros idx Hi. simpl. now rewrite bindex_id.
Qed.

Lemma GLUTorch_forward_spec (m : GLUTorch) (embed_dim glu_embed_dim : nat)
    (z : tensor R) (pre : list nat) :
  glu_ok embed_dim glu_embed_dim m -> shape z = pre ++ [embed_dim] ->
  exists out,
    GLUTorch_forward m z = Some out /\
    shape out = shape z /\
    forall ipre o, in_bounds pre ipre = true ->
      data out (ipre ++ [o]) =
      Ref.gated_feed_forward m embed_dim glu_embed_dim
        (fun i => data z (ipre ++ [i])) o.
Proof.
  intros (H0 & H1 & Hf0 & Hf1 & Hf2) Hz. unfold GLUTorch_forward.
  destruct (LayerNorm_forward_spec _ _ _ _ H0 Hz) as (z1 & -> & Hs1 & Hd1).
  destruct (Linear_forward_spec _ _ _ _ _ Hf0 Hs1) as (w & -> & Hsw & Hdw).
  destruct (Linear_forward_spec _ _ _ _ _ Hf1 Hs1) as (v & -> & Hsv & Hdv).
  destruct (map2_same Rmult (nn.GELU_forward (gelu m) w) v _ Hsw Hsv)
    as (wv & -> & Hswv & Hdwv).
  destruct (LayerNorm_forward_spec _ _ _ _ H1 Hswv) as (z2 & -> & Hs2 & Hd2).
  destruct (Linear_forward_spec _ _ _ _ _ Hf2 Hs2) as (z3 & -> & Hs3 & Hd3).
  eexists. split; [reflexivity|]. split; [congruence|].
  intros ipre o Hi. rewrite Hd3. unfold Ref.gated_feed_forward, Ref.linear, Ref.dot.
  apply rsum_ext. intros j Hj. f_equal.
  rewrite Hd2. unfold Ref.layer_norm.
  assert (E : forall k, k < glu_embed_dim ->
            data wv (ipre ++ [k]) =
            (nn.gelu (Ref.linear (fc0 m) embed_dim
                       (Ref.layer_norm (ln0 m) (fun i => data z (ipre ++ [i]))) k) *
             Ref.linear (fc1 m) embed_dim
               (Ref.layer_norm (ln0 m) (fun i => data z (ipre ++ [i]))) k)%R).
  { intros k Hk. rewrite Hdwv by (apply in_bounds_app; assumption).
    simpl. rewrite Hdw, Hdv. unfold Ref.linear, Ref.dot.
    f_equal; [f_equal|]; apply rsum_ext; intros i _; now rewrite Hd1. }
  destruct H1 as (Hn1 & _). rewrite Hn1.
  assert (Es : forall g : R -> R,
            rsum glu_embed_dim (fun i => g (data wv (ipre ++ [i]))) =
            rsum glu_embed_dim (fun i => g
              (nn.gelu (Ref.linear (fc0 m) embed_dim
                         (Ref.layer_norm (ln0 m) (fun i => data z (ipre ++ [i]))) i) *
               Ref.linear (fc1 m) embed_dim
                 (Ref.layer_norm (ln0 m) (fun i => data z (ipre ++ [i]))) i)%R)).
  { intros g. apply rsum_ext. intros i Hi'. now rewrite E. }
  rewrite (Es (fun v => v)).
  rewrite (Es (fun v => ((v - _) * (v - _))%R)).
  rewrite (E j Hj). reflexivity.
Qed.

(** ** Reshaping *)

Lemma div_mod_lin (a m r : nat) :
  r < m -> (a * m + r) / m = a /\ (a * m + r) mod m = r.
Proof.
  intros Hr. split.
  - symmetry. apply (Nat.div_unique _ _ _ r); [assumption | lia].
  - symmetry. apply (Nat.mod_unique _ _ a); [assumption | lia].
Qed.

Lemma ravel_lt (s idx : list nat) :
  in_bounds s idx = true -> ravel s idx < numel s.
Proof.
  revert idx; induction s as [|d s IH]; intros [|i idx] H; simpl in *;
    try discriminate; [lia|].
  apply andb_prop in H as [H1 H2]. apply Nat.ltb_lt in H1.
  specialize (IH _ H2). nia.
Qed.

Lemma unravel_ravel (s idx : list nat) :
  in_bounds s idx = true -> unravel s (ravel s idx) = idx.
Proof.
  revert idx; induction s as [|d s IH]; intros [|i idx] H; simpl in *;
    try discriminate; [reflexivity|].
  apply andb_prop in H as [H1 H2].
  destruct (div_mod_lin i (numel s) (ravel s idx) (ravel_lt _ _ H2)) as [-> ->].
  now rewrite IH.
Qed.

Lemma fold_mul_of_nat (ds : list nat) :
  fold_right Z.mul 1%Z (map Z.of_nat ds) = Z.of_nat (numel ds).
Proof.
  induction ds as [|d ds IH]; simpl; [reflexivity|].
  rewrite IH. lia.
Qed.

(** A request [ds ++ [-1]] on a tensor of [n] elements: the last size is
    inferred when the known sizes have a non-zero product that divides
    [n], and the request is refused otherwise. *)
Lemma infer_shape_last_eq (n : nat) (ds : list nat) :
  torch.infer_shape n (map Z.of_nat ds ++ [(-1)%Z]) =
  if numel ds =? 0 then None
  else if n mod numel ds =? 0 then Some (ds ++ [n / numel ds])
  else None.
Proof.
  unfold torch.infer_shape.
  assert (E1 : existsb (fun d => (d <? -1)%Z) (map Z.of_nat ds ++ [(-1)%Z]) = false).
  { rewrite existsb_app. simpl. rewrite orb_false_r.
    clear. induction ds as [|d ds IH]; simpl; [reflexivity|].
    rewrite IH, orb_false_r. apply Z.ltb_ge. lia. }
  assert (E2 : filter (fun d => negb (d =? -1)%Z) (map Z.of_nat ds ++ [(-1)%Z])
               = map Z.of_nat ds).
  { rewrite filter_app. simpl. rewrite app_nil_r.
    clear. induction ds as [|d ds IH]; simpl; [reflexivity|].
    replace (Z.of_nat d =? -1)%Z with false by (symmetry; apply Z.eqb_neq; lia).
    simpl. now rewrite IH. }
  assert (E3 : count_occ Z.eq_dec (map Z.of_nat ds ++ [(-1)%Z]) (-1)%Z = 1).
  { rewrite count_occ_app. simpl.
    replace (count_occ Z.eq_dec (map Z.of_nat ds) (-1)%Z) with 0; [reflexivity|].
    symmetry. apply count_occ_not_In. intros Hin.
    apply in_map_iff in Hin as (d & Hd & _). lia. }
  assert (E4 : map (fun d => if (d =? -1)%Z
                             then Z.to_nat (Z.of_nat n / Z.of_nat (numel ds))
                             else Z.to_nat d) (map Z.of_nat ds) = ds).
  { clear. induction ds as [|d ds' IH]; simpl; [reflexivity|].
    replace (Z.of_nat d =? -1)%Z with false by (symmetry; apply Z.eqb_neq; lia).
    rewrite Nat2Z.id. f_equal. rewrite <- IH at 2. apply map_ext_in.
    intros z Hz. apply in_map_iff in Hz as (k & <- & _).
    replace (Z.of_nat k =? -1)%Z with false by (symmetry; apply Z.eqb_neq; lia).
    reflexivity. }
  rewrite E1, E2, E3, fold_mul_of_nat. cbn [negb guard].
  destruct (numel ds =? 0) eqn:E0.
  - apply Nat.eqb_eq in E0. rewrite E0. reflexivity.
  - apply Nat.eqb_neq in E0.
    replace (Z.of_nat (numel ds) =? 0)%Z with false by (symmetry; apply Z.eqb_neq; lia).
    cbn [negb guard]. rewrite <- Nat2Z.inj_mod.
    destruct (n mod numel ds =? 0) eqn:Em.
    + apply Nat.eqb_eq in Em. rewrite Em. cbn [Z.of_nat Z.eqb guard].
      rewrite map_app, E4. cbn [map Z.eqb Pos.eqb].
      now rewrite <- Nat2Z.inj_div, Nat2Z.id.
    + apply Nat.eqb_neq in Em.
      replace (Z.of_nat (n mod numel ds) =? 0)%Z with false
        by (symmetry; apply Z.eqb_neq; lia).
      reflexivity.
Qed.

Lemma infer_shape_last (n : nat) (ds : list nat) (q : nat) :
  n = numel ds * q -> 0 < numel ds ->
  torch.infer_shape n (map Z.of_nat ds ++ [(-1)%Z]) = Some (ds ++ [q]).
Proof.
  intros Hn Hpos. rewrite infer_shape_last_eq.
  replace (numel ds =? 0) with false by (symmetry; apply Nat.eqb_neq; lia).
  subst n. rewrite (Nat.mul_comm (numel ds) q).
  rewrite Nat.Div0.mod_mul, Nat.div_mul by lia. reflexivity.
Qed.

(** ** The attention module, step by step *)

Ltac inb :=
  cbn [in_bounds];
  repeat match goal with
  | |- context [?i <? ?d] =>
      rewrite (proj2 (Nat.ltb_lt i d)) by (assumption || lia)
  end; reflexivity.

Lemma clamp_lt (d i : nat) : i < d -> (if d =? 1 then 0 else i) = i.
Proof.
  intros H. destruct (d =? 1) eqn:E; [|reflexivity].
  apply Nat.eqb_eq in E. lia.
Qed.

Lemma bindex4 (a b c d i j k l : nat) :
  i < a -> j < b -> k < c -> l < d ->
  torch.bindex [a; b; c; d] [i; j; k; l] = [i; j; k; l].
Proof. intros. apply bindex_id. inb. Qed.

Lemma transpose_1_3_spec {A} (t : tensor A) (a b c d : nat) :
  shape t = [a; b; c; d] ->
  exists out,
    torch.transpose 1 3 t = Some out /\
    shape out = [a; d; c; b] /\
    forall i j k l, data out [i; j; k; l] = data t [i; l; k; j].
Proof.
  intros Hs. unfold torch.transpose, rank. rewrite Hs. simpl.
  eexists. split; [reflexivity|]. split; reflexivity.
Qed.

Lemma transpose_1_2_spec {A} (t : tensor A) (a b c d : nat) :
  shape t = [a; b; c; d] ->
  exists out,
    torch.transpose 1 2 t = Some out /\
    shape out = [a; c; b; d] /\
    forall i j k l, data out [i; j; k; l] = data t [i; k; j; l].
Proof.
  intros Hs. unfold torch.transpose, rank. rewrite Hs. simpl.
  eexists. split; [reflexivity|]. split; reflexivity.
Qed.

Lemma reshape_last_spec {A} (t : tensor A) (s ds : list nat) (q : nat) :
  shape t = s -> numel s = numel ds * q -> 0 < numel ds ->
  exists out,
    torch.reshape (map Z.of_nat ds ++ [(-1)%Z]) t = Some out /\
    shape out = ds ++ [q] /\
    forall idx, data out idx = data t (unravel s (ravel (ds ++ [q]) idx)).
Proof.
  intros Hs Hn Hpos. unfold torch.reshape.
  rewrite Hs, (infer_shape_last _ ds q Hn Hpos).
  eexists. split; [reflexivity|]. split; reflexivity.
Qed.

Lemma where_mask_spec {A} (mask : tensor bool) (x y : A) (b n : nat) :
  shape mask = [b; n] ->
  exists out,
    torch.where_ mask (torch.full [1; 1] x) (torch.full [1; 1] y) = Some out /\
    shape out = [b; n] /\
    forall b0 j, b0 < b -> j < n ->
      data out [b0; j] = if data mask [b0; j] then x else y.
Proof.
  intros Hs. unfold torch.where_, torch.broadcast_shapes. rewrite Hs. simpl.
  rewrite !bdim_1_r. simpl. rewrite !bdim_1_r. simpl.
  eexists. split; [reflexivity|]. split; [reflexivity|].
  intros b0 j Hb Hj. simpl.
  replace (torch.bindex [b; n] [b0; j]) with [b0; j]
    by (symmetry; apply bindex_id; inb).
  reflexivity.
Qed.

Lemma index_cc_NN_spec {A} (t : tensor A) (b n : nat) :
  shape t = [b; n] ->
  exists out,
    torch.index_cc_NN t = Some out /\
    shape out = [b; n; 1; 1] /\
    forall i j k l, data out [i; j; k; l] = data t [i; j].
Proof.
  intros Hs. unfold torch.index_cc_NN. rewrite Hs.
  eexists. split; [reflexivity|]. split; reflexivity.
Qed.

Lemma einsum_bchq_bkhc_bkhq_spec (x y : tensor R) (b c h q k : nat) :
  shape x = [b; c; h; q] -> shape y = [b; k; h; c] ->
  exists out,
    torch.einsum_bchq_bkhc_bkhq x y = Some out /\
    shape out = [b; k; h; q] /\
    forall ib ik ih iq, ib < b -> ik < k -> ih < h -> iq < q ->
      data out [ib; ik; ih; iq] =
      rsum c (fun ic => data x [ib; ic; ih; iq] * data y [ib; ik; ih; ic])%R.
Proof.
  intros Hx Hy. unfold torch.einsum_bchq_bkhc_bkhq. rewrite Hx, Hy, !bdim_refl.
  eexists. split; [reflexivity|]. split; [reflexivity|].
  intros ib ik ih iq Hb Hk Hh Hq. cbn [data]. apply rsum_ext. intros ic Hc.
  now rewrite !bindex4 by assumption.
Qed.

Lemma einsum_bkhq_bchk_bchq_spec (x y : tensor R) (b c h q k : nat) :
  shape x = [b; k; h; q] -> shape y = [b; c; h; k] ->
  exists out,
    torch.einsum_bkhq_bchk_bchq x y = Some out /\
    shape out = [b; c; h; q] /\
    forall ib ic ih iq, ib < b -> ic < c -> ih < h -> iq < q ->
      data out [ib; ic; ih; iq] =
      rsum k (fun ik => data x [ib; ik; ih; iq] * data y [ib; ic; ih; ik])%R.
Proof.
  intros Hx Hy. unfold torch.einsum_bkhq_bchk_bchq. rewrite Hx, Hy, !bdim_refl.
  eexists. split; [reflexivity|]. split; [reflexivity|].
  intros ib ic ih iq Hb Hc Hh Hq. cbn [data]. apply rsum_ext. intros ik Hk.
  now rewrite !bindex4 by assumption.
Qed.

Lemma imap2_bias_spec {A B} (f : A -> B -> A) (x : tensor A) (y : tensor B)
    (b k h q : nat) :
  shape x = [b; k; h; q] -> shape y = [b; k; 1; 1] ->
  exists out,
    torch.imap2 f x y = Some out /\
    shape out = [b; k; h; q] /\
    forall ib ik ih iq, ib < b -> ik < k -> ih < h -> iq < q ->
      data out [ib; ik; ih; iq] = f (data x [ib; ik; ih; iq]) (data y [ib; ik; 0; 0]).
Proof.
  intros Hx Hy. unfold torch.imap2, torch.map2, torch.broadcast_shapes.
  rewrite Hx, Hy. simpl. rewrite !bdim_1_r, !bdim_refl. simpl.
  rewrite !Nat.eqb_refl. simpl.
  eexists. split; [reflexivity|]. split; [reflexivity|].
  intros ib ik ih iq Hb Hk Hh Hq. cbn [data].
  rewrite bindex4 by assumption. f_equal. f_equal.
  unfold torch.bindex. simpl. now rewrite !clamp_lt by assumption.
Qed.

Lemma softmax_1_spec (t : tensor ereal) (a b c d : nat) :
  shape t = [a; b; c; d] ->
  exists out,
    torch.softmax t 1 = Some out /\
    shape out = [a; b; c; d] /\
    forall i j k l,
      data out [i; j; k; l] =
      (eexp (data t [i; j; k; l]) /
       rsum b (fun j' => eexp (data t [i; j'; k; l])))%R.
Proof.
  intros Hs. unfold torch.softmax, rank. rewrite Hs. simpl.
  eexists. split; [reflexivity|]. split; reflexivity.
Qed.

Lemma Conv2d_forward_spec (m : nn.Conv2d) (x : tensor R) (n_in n_out b h w : nat) :
  conv_ok n_in n_out m -> shape x = [b; n_in; h; w] -> 0 < h -> 0 < w ->
  exists out,
    nn.Conv2d_forward m x = Some out /\
    shape out = [b; n_out; h; w] /\
    forall ib o ih iw,
      data out [ib; o; ih; iw] =
      rsum n_in (fun ic => data (nn.conv_weight m) [o; ic; 0%nat; 0%nat] * data x [ib; ic; ih; iw])%R.
Proof.
  intros Hm Hx Hh Hw. unfold nn.Conv2d_forward. red in Hm.
  rewrite Hm, Hx, Nat.eqb_refl.
  rewrite (proj2 (Nat.leb_le 1 h)), (proj2 (Nat.leb_le 1 w)) by lia.
  cbn [andb guard]. eexists. split; [reflexivity|]. split; reflexivity.
Qed.

Lemma reindex_keys (b n heads hdim b0 j h c : nat) :
  b0 < b -> j < n -> h < heads -> c < hdim ->
  unravel [b; n; 1; heads * hdim] (ravel [b; n; heads; hdim] [b0; j; h; c])
  = [b0; j; 0; h * hdim + c].
Proof.
  intros Hb Hj Hh Hc.
  replace (ravel [b; n; heads; hdim] [b0; j; h; c])
    with (ravel [b; n; 1; heads * hdim] [b0; j; 0; h * hdim + c])
    by (cbn [ravel numel fold_right]; ring).
  apply unravel_ravel. assert (h * hdim + c < heads * hdim) by nia. inb.
Qed.

Lemma reindex_values (b n heads hdim b0 h c q : nat) :
  b0 < b -> h < heads -> c < hdim -> q < n ->
  unravel [b; heads * hdim; 1; n] (ravel [b; heads; hdim; n] [b0; h; c; q])
  = [b0; h * hdim + c; 0; q].
Proof.
  intros Hb Hh Hc Hq.
  replace (ravel [b; heads; hdim; n] [b0; h; c; q])
    with (ravel [b; heads * hdim; 1; n] [b0; h * hdim + c; 0; q])
    by (cbn [ravel numel fold_right]; ring).
  apply unravel_ravel. assert (h * hdim + c < heads * hdim) by nia. inb.
Qed.

Lemma reindex_hidden (b n heads hdim b0 ch q : nat) :
  0 < hdim -> b0 < b -> ch < heads * hdim -> q < n ->
  unravel [b; heads; hdim; n] (ravel [b; heads * hdim; 1; n] [b0; ch; 0; q])
  = [b0; ch / hdim; ch mod hdim; q].
Proof.
  intros Hd Hb Hc Hq.
  assert (E : ch = ch / hdim * hdim + ch mod hdim)
    by (rewrite (Nat.div_mod_eq ch hdim) at 1; lia).
  assert (Hm : ch mod hdim < hdim) by (apply Nat.mod_upper_bound; lia).
  assert (Hq' : ch / hdim < heads) by (apply Nat.Div0.div_lt_upper_bound; lia).
  replace (ravel [b; heads * hdim; 1; n] [b0; ch; 0; q])
    with (ravel [b; heads; hdim; n] [b0; ch / hdim; ch mod hdim; q]).
  - apply unravel_ravel. inb.
  - cbn [ravel numel fold_right]. rewrite E at 3. ring.
Qed.

Lemma pow_half_of_nat (n : nat) : pow_half (Z.of_nat n) = sqrt (INR n).
Proof. unfold pow_half. now rewrite INR_IZR_INZ. Qed.

Lemma AttentionTorch_run_spec (m : AttentionTorch) (heads hdim b n : nat)
    (keys values queries : tensor R) (mask : tensor bool) :
  attention_ok heads hdim m -> 0 < b -> 0 < n ->
  shape keys = [b; heads * hdim; 1; n] ->
  shape values = [b; heads * hdim; 1; n] ->
  shape queries = [b; heads * hdim; 1; n] ->
  shape mask = [b; n] ->
  exists l,
    AttentionTorch_run m keys values queries mask = Some l /\
    (shape (scores l) = [b; n; heads; n] /\
     shape (biased l) = [b; n; heads; n] /\
     shape (probabilities l) = [b; n; heads; n] /\
     shape (weighted l) = [b; heads * hdim; 1; n] /\
     shape (returned l) = [b; heads * hdim; 1; n]) /\
    (forall b0 j h i, b0 < b -> j < n -> h < heads -> i < n ->
       let q := channels_first queries b0 in
       let k := channels_first keys b0 in
       data (scores l) [b0; j; h; i] = Ref.score hdim q k h i j /\
       data (biased l) [b0; j; h; i] =
         Ref.masked (mask_row mask b0) (Ref.score hdim q k h i) j /\
       data (probabilities l) [b0; j; h; i] =
         Ref.prob hdim n (mask_row mask b0) q k h i j) /\
    (forall b0 ch i, b0 < b -> ch < heads * hdim -> i < n ->
       let q := channels_first queries b0 in
       let k := channels_first keys b0 in
       let v := channels_first values b0 in
       data (weighted l) [b0; ch; 0; i] =
         Ref.attend hdim n (mask_row mask b0) q k v i ch /\
       data (returned l) [b0; ch; 0; i] =
         Ref.attention m (heads * hdim) hdim n (mask_row mask b0) k v q i ch).
Proof.
  intros (HH & Hd & Hhc & Hhd & Hec & Hk & Hv & Hq & Ho) Hb Hn Hsk Hsv Hsq Hsm.
  unfold AttentionTorch_run. rewrite Hsk. cbn [nth_error].
  destruct (transpose_1_3_spec keys _ _ _ _ Hsk) as (k1 & -> & Hsk1 & Hdk1).
  rewrite Hsk1, Hhc, Hhd, Hec. cbn [firstn map app].
  destruct (reshape_last_spec k1 _ [b; n; heads] hdim Hsk1) as (k2 & Ek2 & Hsk2 & Hdk2);
    [cbn [numel fold_right]; ring | cbn [numel fold_right]; nia |].
  cbn [map app] in Ek2. rewrite Ek2. clear Ek2. cbn [app] in Hsk2, Hdk2.
  destruct (reshape_last_spec values _ [b; heads; hdim] n Hsv) as (v1 & Ev1 & Hsv1 & Hdv1);
    [cbn [numel fold_right]; ring | cbn [numel fold_right]; nia |].
  cbn [map app] in Ev1. rewrite Ev1. clear Ev1. cbn [app] in Hsv1, Hdv1.
  destruct (transpose_1_2_spec v1 _ _ _ _ Hsv1) as (v2 & -> & Hsv2 & Hdv2).
  destruct (reshape_last_spec queries _ [b; heads; hdim] n Hsq) as (q1 & Eq1 & Hsq1 & Hdq1);
    [cbn [numel fold_right]; ring | cbn [numel fold_right]; nia |].
  cbn [map app] in Eq1. rewrite Eq1. clear Eq1. cbn [app] in Hsq1, Hdq1.
  destruct (transpose_1_2_spec q1 _ _ _ _ Hsq1) as (q2 & -> & Hsq2 & Hdq2).
  destruct (where_mask_spec mask (Fin 0) NegInf _ _ Hsm) as (bias & -> & Hsb & Hdb).
  destruct (einsum_bchq_bkhc_bkhq_spec
              (tmap (fun x => (x / pow_half (Z.of_nat hdim))%R) q2) k2
              b hdim heads n n Hsq2 Hsk2) as (w0 & -> & Hsw0 & Hdw0).
  destruct (index_cc_NN_spec bias _ _ Hsb) as (bias4 & -> & Hsb4 & Hdb4).
  destruct (imap2_bias_spec eadd (tmap Fin w0) bias4 b n heads n Hsw0 Hsb4)
    as (w1 & -> & Hsw1 & Hdw1).
  destruct (softmax_1_spec w1 _ _ _ _ Hsw1) as (w2 & -> & Hsw2 & Hdw2).
  destruct (einsum_bkhq_bchk_bchq_spec w2 v2 b hdim heads n n Hsw2 Hsv2)
    as (h0 & -> & Hsh0 & Hdh0).
  destruct (transpose_1_2_spec h0 _ _ _ _ Hsh0) as (h1 & -> & Hsh1 & Hdh1).
  destruct (reshape_last_spec h1 _ [b; heads * hdim; 1] n Hsh1) as (h2 & Eh2 & Hsh2 & Hdh2);
    [cbn [numel fold_right]; ring | cbn [numel fold_right]; nia |].
  cbn [map app] in Eh2. change (Z.of_nat 1) with 1%Z in Eh2. rewrite Eh2. clear Eh2. cbn [app] in Hsh2, Hdh2.
  destruct (Conv2d_forward_spec (out_proj m) h2 _ _ _ _ _ Ho Hsh2 ltac:(lia) ltac:(lia)) as (h3 & -> & Hsh3 & Hdh3).
  eexists. split; [reflexivity|]. cbn [scores biased probabilities weighted returned].
  split; [repeat split; assumption|].
  assert (Escore : forall b0 j h i, b0 < b -> j < n -> h < heads -> i < n ->
            data w0 [b0; j; h; i] =
            Ref.score hdim (channels_first queries b0) (channels_first keys b0) h i j).
  { intros b0 j h i Hb0 Hj Hh Hi. rewrite Hdw0 by assumption.
    unfold Ref.score, Ref.dot, Ref.head, channels_first, Rdiv.
    rewrite <- rsum_scal_r. apply rsum_ext. intros c Hc. cbn [tmap data].
    rewrite Hdq2, Hdq1, reindex_values, Hdk2, reindex_keys, Hdk1 by assumption. rewrite pow_half_of_nat. unfold Rdiv. ring. }
  assert (Ebias : forall b0 j h i, b0 < b -> j < n -> h < heads -> i < n ->
            data w1 [b0; j; h; i] =
            Ref.masked (mask_row mask b0)
              (Ref.score hdim (channels_first queries b0) (channels_first keys b0) h i) j).
  { intros b0 j h i Hb0 Hj Hh Hi. rewrite Hdw1 by assumption. cbn [tmap data].
    rewrite Escore, Hdb4, Hdb by assumption. unfold Ref.masked, mask_row.
    destruct (data mask [b0; j]); simpl; [now rewrite Rplus_0_r | reflexivity]. }
  assert (Eprob : forall b0 j h i, b0 < b -> j < n -> h < heads -> i < n ->
            data w2 [b0; j; h; i] =
            Ref.prob hdim n (mask_row mask b0)
              (channels_first queries b0) (channels_first keys b0) h i j).
  { intros b0 j h i Hb0 Hj Hh Hi. rewrite Hdw2. unfold Ref.prob, Ref.softmax.
    rewrite Ebias by assumption. f_equal. apply rsum_ext. intros j' Hj'.
    now rewrite Ebias. }
  assert (Eattend : forall b0 ch i, b0 < b -> ch < heads * hdim -> i < n ->
            data h2 [b0; ch; 0; i] =
            Ref.attend hdim n (mask_row mask b0) (channels_first queries b0)
              (channels_first keys b0) (channels_first values b0) i ch).
  { intros b0 ch i Hb0 Hch Hi.
    assert (Hm : ch mod hdim < hdim) by (apply Nat.mod_upper_bound; lia).
    assert (Hq' : ch / hdim < heads) by (apply Nat.Div0.div_lt_upper_bound; lia).
    rewrite Hdh2, reindex_hidden, Hdh1, Hdh0 by assumption.
    unfold Ref.attend. apply rsum_ext. intros j Hj.
    rewrite Eprob, Hdv2, Hdv1, reindex_values by assumption.
    unfold channels_first.
    replace (ch / hdim * hdim + ch mod hdim) with ch
      by (rewrite (Nat.div_mod_eq ch hdim) at 1; lia).
    reflexivity. }
  split.
  - intros b0 j h i Hb0 Hj Hh Hi. cbv zeta. auto.
  - intros b0 ch i Hb0 Hch Hi. cbv zeta. split; [auto|].
    rewrite Hdh3. unfold Ref.attention, Ref.project. apply rsum_ext.
    intros c Hc. now rewrite Eattend.
Qed.

(** ** What the reference computation reads

    Each function of [Ref] reads its arguments inside the bounds only,
    and appending masked key positions changes nothing at the positions
    that were there: the added columns weigh zero. *)

Lemma layer_norm_ext (m : nn.LayerNorm) (n : nat) (x y : nat -> R) (o : nat) :
  nn.normalized_shape m = n -> (forall i, i < n -> x i = y i) -> o < n ->
  Ref.layer_norm m x o = Ref.layer_norm m y o.
Proof.
  intros Hn E Ho. unfold Ref.layer_norm. rewrite Hn.
  rewrite (rsum_ext n x y E).
  rewrite (rsum_ext n (fun i => (x i - rsum n y / INR n) * (x i - rsum n y / INR n))%R
                      (fun i => (y i - rsum n y / INR n) * (y i - rsum n y / INR n))%R)
    by (intros i Hi; now rewrite E).
  now rewrite (E o Ho).
Qed.

Lemma linear_ext (m : nn.Linear) (n : nat) (x y : nat -> R) (o : nat) :
  (forall i, i < n -> x i = y i) -> Ref.linear m n x o = Ref.linear m n y o.
Proof.
  intros E. unfold Ref.linear, Ref.dot. apply rsum_ext. intros i Hi. now rewrite E.
Qed.

Lemma gated_feed_forward_ext (m : GLUTorch) (embed_dim glu_embed_dim : nat)
    (x y : nat -> R) (o : nat) :
  glu_ok embed_dim glu_embed_dim m -> (forall i, i < embed_dim -> x i = y i) ->
  Ref.gated_feed_forward m embed_dim glu_embed_dim x o =
  Ref.gated_feed_forward m embed_dim glu_embed_dim y o.
Proof.
  intros ((Hn0 & _) & (Hn1 & _) & _) E. unfold Ref.gated_feed_forward.
  apply linear_ext. intros j Hj.
  apply layer_norm_ext with (n := glu_embed_dim); [assumption | | assumption].
  intros k Hk.
  assert (El : forall f, Ref.linear f embed_dim (Ref.layer_norm (ln0 m) x) k =
                         Ref.linear f embed_dim (Ref.layer_norm (ln0 m) y) k).
  { intros f. apply linear_ext. intros i Hi.
    now apply layer_norm_ext with (n := embed_dim). }
  now rewrite !El.
Qed.

Section Prefix.

(** Two runs: one over [n] positions, one over [n + p] positions whose
    first [n] coincide with the first run and whose last [p] are masked. *)
Variables (heads hdim n p : nat).
Variables (mask mask' : nat -> bool).
Hypothesis Hhdim : 0 < hdim.
Hypothesis Hmask : forall j, j < n -> mask' j = mask j.
Hypothesis Hpad : forall j, n <= j -> j < n + p -> mask' j = false.

Lemma project_agree (m : nn.Conv2d) (x x' : nat -> nat -> R) :
  agree (heads * hdim) n x x' ->
  agree (heads * hdim) n (Ref.project m (heads * hdim) x) (Ref.project m (heads * hdim) x').
Proof.
  intros E t o Ht _. unfold Ref.project. apply rsum_ext. intros i Hi.
  now rewrite E.
Qed.

Lemma score_agree (q q' k k' : nat -> nat -> R) (h i j : nat) :
  agree (heads * hdim) n q q' -> agree (heads * hdim) n k k' -> h < heads -> i < n -> j < n ->
  Ref.score hdim q' k' h i j = Ref.score hdim q k h i j.
Proof.
  intros Eq Ek Hh Hi Hj. unfold Ref.score, Ref.dot, Ref.head. f_equal.
  apply rsum_ext. intros c Hc.
  assert (h * hdim + c < heads * hdim) by nia.
  now rewrite Eq, Ek.
Qed.

Lemma masked_agree (q q' k k' : nat -> nat -> R) (h i j : nat) :
  agree (heads * hdim) n q q' -> agree (heads * hdim) n k k' -> h < heads -> i < n -> j < n ->
  Ref.masked mask' (Ref.score hdim q' k' h i) j =
  Ref.masked mask (Ref.score hdim q k h i) j.
Proof.
  intros Eq Ek Hh Hi Hj. unfold Ref.masked.
  rewrite Hmask by assumption.
  now rewrite (score_agree q q' k k') by assumption.
Qed.

Lemma masked_pad (s : nat -> R) (j : nat) :
  n <= j -> j < n + p -> Ref.masked mask' s j = NegInf.
Proof. intros H1 H2. unfold Ref.masked. now rewrite Hpad. Qed.

Lemma denominator_agree (q q' k k' : nat -> nat -> R) (h i : nat) :
  agree (heads * hdim) n q q' -> agree (heads * hdim) n k k' -> h < heads -> i < n ->
  rsum (n + p) (fun j => eexp (Ref.masked mask' (Ref.score hdim q' k' h i) j)) =
  rsum n (fun j => eexp (Ref.masked mask (Ref.score hdim q k h i) j)).
Proof.
  intros Eq Ek Hh Hi. rewrite rsum_app.
  rewrite (rsum_zero p) by (intros j Hj; rewrite masked_pad by lia; reflexivity).
  rewrite Rplus_0_r. apply rsum_ext. intros j Hj.
  now rewrite (masked_agree q q' k k') by assumption.
Qed.

Lemma prob_agree (q q' k k' : nat -> nat -> R) (h i j : nat) :
  agree (heads * hdim) n q q' -> agree (heads * hdim) n k k' -> h < heads -> i < n -> j < n ->
  Ref.prob hdim (n + p) mask' q' k' h i j = Ref.prob hdim n mask q k h i j.
Proof.
  intros Eq Ek Hh Hi Hj. unfold Ref.prob, Ref.softmax.
  rewrite (denominator_agree q q' k k') by assumption.
  now rewrite (masked_agree q q' k k') by assumption.
Qed.

Lemma prob_pad (q' k' : nat -> nat -> R) (h i j : nat) :
  n <= j -> j < n + p -> Ref.prob hdim (n + p) mask' q' k' h i j = 0%R.
Proof.
  intros H1 H2. unfold Ref.prob, Ref.softmax. rewrite masked_pad by assumption.
  simpl. unfold Rdiv. apply Rmult_0_l.
Qed.

Lemma attend_agree (q q' k k' v v' : nat -> nat -> R) :
  agree (heads * hdim) n q q' -> agree (heads * hdim) n k k' -> agree (heads * hdim) n v v' ->
  agree (heads * hdim) n (Ref.attend hdim n mask q k v) (Ref.attend hdim (n + p) mask' q' k' v').
Proof.
  intros Eq Ek Ev i ch Hi Hch. unfold Ref.attend.
  assert (Hh : ch / hdim < heads) by (apply Nat.Div0.div_lt_upper_bound; lia).
  rewrite rsum_app.
  rewrite (rsum_zero p)
    by (intros j Hj; rewrite prob_pad by lia; apply Rmult_0_l).
  rewrite Rplus_0_r. apply rsum_ext. intros j Hj.
  rewrite (prob_agree q q' k k') by assumption.
  now rewrite Ev.
Qed.

Lemma self_attention_agree (m : AttentionTorch) (x x' : nat -> nat -> R) :
  agree (heads * hdim) n x x' ->
  agree (heads * hdim) n (Ref.self_attention m (heads * hdim) hdim n mask x)
        (Ref.self_attention m (heads * hdim) hdim (n + p) mask' x').
Proof.
  intros E. unfold Ref.self_attention, Ref.attention.
  apply project_agree. apply attend_agree; apply project_agree; exact E.
Qed.

Lemma encoder_layer_agree (m : EncoderLayerTorch) (glu_embed_dim : nat)
    (x x' : nat -> nat -> R) :
  layer_ok heads hdim glu_embed_dim m -> agree (heads * hdim) n x x' ->
  agree (heads * hdim) n (Ref.encoder_layer m (heads * hdim) hdim glu_embed_dim n mask x)
        (Ref.encoder_layer m (heads * hdim) hdim glu_embed_dim (n + p) mask' x').
Proof.
  intros ((Hn1 & _) & _ & (Hn2 & _) & Hglu) E.
  assert (E1 : agree (heads * hdim) n (fun i => Ref.layer_norm (pre_self_attn_layer_norm m) (x i))
                     (fun i => Ref.layer_norm (pre_self_attn_layer_norm m) (x' i))).
  { intros t c Ht Hc. apply layer_norm_ext with (n := heads * hdim); auto. }
  pose proof (self_attention_agree (self_attn m) _ _ E1) as E2.
  assert (E3 : forall t c, t < n -> c < heads * hdim ->
    (x' t c + Ref.layer_norm (self_attn_layer_norm m)
       (Ref.self_attention (self_attn m) (heads * hdim) hdim (n + p) mask'
          (fun i => Ref.layer_norm (pre_self_attn_layer_norm m) (x' i)) t) c)%R =
    (x t c + Ref.layer_norm (self_attn_layer_norm m)
       (Ref.self_attention (self_attn m) (heads * hdim) hdim n mask
          (fun i => Ref.layer_norm (pre_self_attn_layer_norm m) (x i)) t) c)%R).
  { intros t c Ht Hc. rewrite E by assumption. f_equal.
    apply layer_norm_ext with (n := heads * hdim); auto. }
  intros t c Ht Hc. unfold Ref.encoder_layer. rewrite E3 by assumption. f_equal.
  apply gated_feed_forward_ext; [exact Hglu | intros i Hi; now apply E3].
Qed.

Lemma encoder_layers_agree (ms : list EncoderLayerTorch) (glu_embed_dim : nat)
    (x x' : nat -> nat -> R) :
  Forall (layer_ok heads hdim glu_embed_dim) ms -> agree (heads * hdim) n x x' ->
  agree (heads * hdim) n (Ref.encoder_layers ms (heads * hdim) hdim glu_embed_dim n mask x)
        (Ref.encoder_layers ms (heads * hdim) hdim glu_embed_dim (n + p) mask' x').
Proof.
  intros Hms. revert x x'. induction Hms as [|m ms Hm _ IH]; intros x x' E.
  - exact E.
  - simpl. apply IH. now apply encoder_layer_agree.
Qed.

End Prefix.

(** The layer stack: a positive [hdim] is part of [layer_ok], and without
    layers there is nothing to show. *)
Lemma encoder_layers_prefix (ms : list EncoderLayerTorch)
    (heads hdim glu_embed_dim n p : nat) (mask mask' : nat -> bool)
    (x x' : nat -> nat -> R) :
  Forall (layer_ok heads hdim glu_embed_dim) ms ->
  (forall j, j < n -> mask' j = mask j) ->
  (forall j, n <= j -> j < n + p -> mask' j = false) ->
  agree (heads * hdim) n x x' ->
  agree (heads * hdim) n
    (Ref.encoder_layers ms (heads * hdim) hdim glu_embed_dim n mask x)
    (Ref.encoder_layers ms (heads * hdim) hdim glu_embed_dim (n + p) mask' x').
Proof.
  intros Hms Hmask Hpad E. destruct ms as [|m ms]; [exact E|].
  assert (Hd : 0 < hdim).
  { inversion Hms as [|? ? (_ & (_ & H & _) & _) _]. exact H. }
  now apply encoder_layers_agree.
Qed.


(** ** Self-attention and the encoder layer against the reference *)

Lemma transpose3_1_2_spec {A} (t : tensor A) (a b c : nat) :
  shape t = [a; b; c] ->
  exists out,
    torch.transpose 1 2 t = Some out /\
    shape out = [a; c; b] /\
    forall i j k, data out [i; j; k] = data t [i; k; j].
Proof.
  intros Hs. unfold torch.transpose, rank. rewrite Hs. simpl.
  eexists. split; [reflexivity|]. split; reflexivity.
Qed.

Lemma unsqueeze_2_spec {A} (t : tensor A) (a b c : nat) :
  shape t = [a; b; c] ->
  exists out,
    torch.unsqueeze 2 t = Some out /\
    shape out = [a; b; 1; c] /\
    forall i j k l, data out [i; j; k; l] = data t [i; j; l].
Proof.
  intros Hs. unfold torch.unsqueeze, rank. rewrite Hs. simpl.
  eexists. split; [reflexivity|]. split; reflexivity.
Qed.

Lemma squeeze_2_spec {A} (t : tensor A) (a b c : nat) :
  shape t = [a; b; 1; c] ->
  exists out,
    torch.squeeze 2 t = Some out /\
    shape out = [a; b; c] /\
    forall i j k, data out [i; j; k] = data t [i; j; 0; k].
Proof.
  intros Hs. unfold torch.squeeze, rank. rewrite Hs. simpl.
  eexists. split; [reflexivity|]. split; reflexivity.
Qed.

Lemma EncoderSelfAttentionTorch_forward_spec (m : EncoderSelfAttentionTorch)
    (heads hdim b n : nat) (x : tensor R) (mask : tensor bool) :
  attention_ok heads hdim m -> 0 < b -> 0 < n ->
  shape x = [b; n; heads * hdim] -> shape mask = [b; n] ->
  exists out,
    EncoderSelfAttentionTorch_forward m x mask = Some out /\
    shape out = [b; heads * hdim; 1; n] /\
    forall b0 ch i, b0 < b -> ch < heads * hdim -> i < n ->
      data out [b0; ch; 0; i] =
      Ref.self_attention m (heads * hdim) hdim n (mask_row mask b0)
        (hidden_row x b0) i ch.
Proof.
  intros Hm Hb Hn Hx Hmask. unfold EncoderSelfAttentionTorch_forward.
  pose proof Hm as (_ & _ & _ & _ & _ & Hk & Hv & Hq & _).
  destruct (transpose3_1_2_spec x _ _ _ Hx) as (x1 & -> & Hs1 & Hd1).
  destruct (unsqueeze_2_spec x1 _ _ _ Hs1) as (x2 & -> & Hs2 & Hd2).
  destruct (Conv2d_forward_spec _ x2 _ _ _ _ _ Hk Hs2 ltac:(lia) ltac:(lia)) as (keys & -> & Hsk & Hdk).
  destruct (Conv2d_forward_spec _ x2 _ _ _ _ _ Hv Hs2 ltac:(lia) ltac:(lia)) as (values & -> & Hsv & Hdv).
  destruct (Conv2d_forward_spec _ x2 _ _ _ _ _ Hq Hs2 ltac:(lia) ltac:(lia)) as (queries & -> & Hsq & Hdq).
  unfold AttentionTorch_forward.
  destruct (AttentionTorch_run_spec m heads hdim b n keys values queries mask
              Hm Hb Hn Hsk Hsv Hsq Hmask)
    as (l & -> & (_ & _ & _ & _ & Hsr) & _ & Hret).
  eexists. split; [reflexivity|]. split; [exact Hsr|].
  intros b0 ch i Hb0 Hch Hi.
  destruct (Hret b0 ch i Hb0 Hch Hi) as [_ ->].
  unfold Ref.self_attention.
  assert (E : forall (c : nn.Conv2d) (t : tensor R),
            (forall ib o ih iw, data t [ib; o; ih; iw] =
               rsum (heads * hdim) (fun ic =>
                 data (nn.conv_weight c) [o; ic; 0%nat; 0%nat] * data x2 [ib; ic; ih; iw])%R) ->
            channels_first t b0 = Ref.project c (heads * hdim) (hidden_row x b0)).
  { intros c t Ht. unfold channels_first, Ref.project, hidden_row.
    apply functional_extensionality; intros pos.
    apply functional_extensionality; intros o.
    rewrite Ht. apply rsum_ext. intros ic _. now rewrite Hd2, Hd1. }
  now rewrite (E _ _ Hdk), (E _ _ Hdv), (E _ _ Hdq).
Qed.

Lemma EncoderLayerTorch_forward_spec (m : EncoderLayerTorch)
    (heads hdim glu_embed_dim b n : nat) (x : tensor R) (mask : tensor bool) :
  layer_ok heads hdim glu_embed_dim m -> 0 < b -> 0 < n ->
  shape x = [b; n; heads * hdim] -> shape mask = [b; n] ->
  exists out,
    EncoderLayerTorch_forward m x mask = Some out /\
    shape out = [b; n; heads * hdim] /\
    forall b0 t o, b0 < b -> t < n -> o < heads * hdim ->
      data out [b0; t; o] =
      Ref.encoder_layer m (heads * hdim) hdim glu_embed_dim n (mask_row mask b0)
        (hidden_row x b0) t o.
Proof.
  intros (Hpre & Hattn & Hpost & Hglu) Hb Hn Hx Hmask.
  unfold EncoderLayerTorch_forward.
  destruct (LayerNorm_forward_spec _ _ x [b; n] Hpre Hx) as (z1 & -> & Hs1 & Hd1).
  destruct (EncoderSelfAttentionTorch_forward_spec _ heads hdim b n z1 mask
              Hattn Hb Hn Hs1 Hmask) as (a & -> & Hsa & Hda).
  destruct (transpose_1_3_spec a _ _ _ _ Hsa) as (a1 & -> & Hsa1 & Hda1).
  destruct (squeeze_2_spec a1 _ _ _ Hsa1) as (a2 & -> & Hsa2 & Hda2).
  destruct (LayerNorm_forward_spec _ _ a2 [b; n] Hpost Hsa2) as (z2 & -> & Hs2 & Hd2).
  destruct (map2_same Rplus x z2 _ Hx Hs2) as (z3 & -> & Hs3 & Hd3).
  destruct (GLUTorch_forward_spec _ _ _ z3 [b; n] Hglu Hs3) as (z4 & -> & Hs4 & Hd4).
  rewrite Hs3 in Hs4.
  destruct (map2_same Rplus z3 z4 _ Hs3 Hs4) as (z5 & -> & Hs5 & Hd5).
  eexists. split; [reflexivity|]. split; [exact Hs5|].
  assert (E1 : hidden_row z1 =
               fun b0 i => Ref.layer_norm (pre_self_attn_layer_norm m) (hidden_row x b0 i)).
  { apply functional_extensionality; intros b0.
    apply functional_extensionality; intros i.
    apply functional_extensionality; intros c.
    unfold hidden_row. apply (Hd1 [b0; i] c). }
  assert (E3 : forall b0 t o, b0 < b -> t < n -> o < heads * hdim ->
            data z3 [b0; t; o] =
            (hidden_row x b0 t o +
             Ref.layer_norm (self_attn_layer_norm m)
               (Ref.self_attention (self_attn m) (heads * hdim) hdim n (mask_row mask b0)
                  (fun i => Ref.layer_norm (pre_self_attn_layer_norm m) (hidden_row x b0 i))
                  t) o)%R).
  { intros b0 t o Hb0 Ht Ho. rewrite Hd3 by inb. unfold hidden_row at 1. f_equal.
    rewrite (Hd2 [b0; t] o : data z2 [b0; t; o] = _). destruct Hpost as (Hn2 & _).
    apply layer_norm_ext with (n := heads * hdim); [assumption | | assumption].
    intros c Hc. cbn [app]. rewrite Hda2, Hda1, Hda by assumption.
    now rewrite E1. }
  intros b0 t o Hb0 Ht Ho. rewrite Hd5 by inb.
  unfold Ref.encoder_layer. rewrite E3 by assumption. f_equal.
  assert (Hin : in_bounds [b; n] [b0; t] = true) by inb.
  rewrite (Hd4 [b0; t] o Hin : data z4 [b0; t; o] = _).
  apply gated_feed_forward_ext; [exact Hglu|].
  intros c Hc. cbn [app]. now apply E3.
Qed.

(** ** The layer stack and the encoder against the reference *)

Lemma encoder_layers_ext (ms : list EncoderLayerTorch)
    (heads hdim glu_embed_dim n : nat) (mask : nat -> bool)
    (x x' : nat -> nat -> R) :
  Forall (layer_ok heads hdim glu_embed_dim) ms ->
  (forall t c, t < n -> c < heads * hdim -> x' t c = x t c) ->
  forall t c, t < n -> c < heads * hdim ->
    Ref.encoder_layers ms (heads * hdim) hdim glu_embed_dim n mask x' t c =
    Ref.encoder_layers ms (heads * hdim) hdim glu_embed_dim n mask x t c.
Proof.
  intros Hms E t c Ht Hc.
  pose proof (encoder_layers_prefix ms heads hdim glu_embed_dim n 0 mask mask x x'
                Hms (fun j _ => eq_refl) (fun j H1 H2 => ltac:(lia)) E t c Ht Hc) as H.
  now rewrite Nat.add_0_r in H.
Qed.

Lemma run_layers_spec (ms : list EncoderLayerTorch)
    (heads hdim glu_embed_dim b n : nat) (x : tensor R) (mask : tensor bool) :
  Forall (layer_ok heads hdim glu_embed_dim) ms -> 0 < b -> 0 < n ->
  shape x = [b; n; heads * hdim] -> shape mask = [b; n] ->
  exists out,
    run_layers ms x mask = Some out /\
    shape out = [b; n; heads * hdim] /\
    forall b0 t o, b0 < b -> t < n -> o < heads * hdim ->
      data out [b0; t; o] =
      Ref.encoder_layers ms (heads * hdim) hdim glu_embed_dim n (mask_row mask b0)
        (hidden_row x b0) t o.
Proof.
  intros Hms Hb Hn. revert x. induction Hms as [|m ms Hm Hms IH]; intros x Hx Hmask.
  - exists x. split; [reflexivity|]. split; [exact Hx|]. reflexivity.
  - simpl.
    destruct (EncoderLayerTorch_forward_spec m heads hdim glu_embed_dim b n x mask
                Hm Hb Hn Hx Hmask) as (x1 & -> & Hs1 & Hd1).
    destruct (IH x1 Hs1 Hmask) as (out & -> & Hso & Hdo).
    exists out. split; [reflexivity|]. split; [exact Hso|].
    intros b0 t o Hb0 Ht Ho. rewrite Hdo by assumption.
    apply encoder_layers_ext; try assumption.
    intros t' c' Ht' Hc'. unfold hidden_row. now apply Hd1.
Qed.

Lemma stack_arange_spec (b n : nat) :
  0 < b ->
  exists out,
    torch.stack (repeat (torch.arange n) b) = Some out /\
    shape out = [b; n] /\
    forall b0 t, data out [b0; t] = Z.of_nat t.
Proof.
  intros Hb. destruct b as [|b]; [lia|]. cbn [repeat]. unfold torch.stack.
  assert (F : forallb (fun t => shape_eqb (shape t) (shape (torch.arange n)))
                (torch.arange n :: repeat (torch.arange n) b) = true).
  { apply forallb_forall. intros t [<-|Ht]; [apply shape_eqb_refl|].
    apply repeat_spec in Ht. subst. apply shape_eqb_refl. }
  rewrite F. cbn [guard]. eexists. split; [reflexivity|]. split.
  - cbn [shape length]. now rewrite repeat_length.
  - intros b0 t. cbn [data hd tl].
    change (torch.arange n :: repeat (torch.arange n) b)
      with (repeat (torch.arange n) (S b)).
    now rewrite nth_repeat.
Qed.

Lemma Embedding_forward_spec (m : nn.Embedding) (num dim : nat) (ids : tensor Z) :
  emb_ok num dim m -> valid_tokens num ids = true ->
  exists out,
    nn.Embedding_forward m ids = Some out /\
    shape out = shape ids ++ [dim] /\
    forall ipre o,
      data out (ipre ++ [o]) = data (nn.emb_weight m) [Z.to_nat (data ids ipre); o].
Proof.
  intros Hm Hv. unfold nn.Embedding_forward. red in Hm. rewrite Hm.
  unfold valid_tokens in Hv. rewrite Hv. cbn [guard].
  eexists. split; [reflexivity|]. split; [reflexivity|].
  intros ipre o. cbn [data]. now rewrite removelast_last, last_last.
Qed.

Lemma valid_positions (b n max_positions : nat) (pose : tensor Z) :
  shape pose = [b; n] -> (forall b0 t, data pose [b0; t] = Z.of_nat t) ->
  n <= max_positions -> valid_tokens max_positions pose = true.
Proof.
  intros Hs Hd Hn. unfold valid_tokens. apply tall_spec. cbn [tmap shape data].
  rewrite Hs. intros idx Hi.
  destruct idx as [|b0 [|t [|? ?]]]; cbn [in_bounds] in Hi; try discriminate.
  - rewrite andb_false_r in Hi. discriminate.
  - apply andb_prop in Hi as [_ Hi]. rewrite andb_true_r in Hi.
    apply Nat.ltb_lt in Hi. rewrite Hd.
    apply andb_true_intro. split; [apply Z.leb_le | apply Z.ltb_lt]; lia.
  - rewrite !andb_false_r in Hi. discriminate.
Qed.

Lemma DalleBartEncoderTorch_forward_spec (m : DalleBartEncoderTorch)
    (heads hdim glu_embed_dim vocab max_positions b n : nat) (tokens : tensor Z) :
  encoder_ok heads hdim glu_embed_dim vocab max_positions m ->
  shape tokens = [b; n] -> 0 < b -> 0 < n -> n <= max_positions ->
  valid_tokens vocab tokens = true ->
  exists out,
    DalleBartEncoderTorch_forward m tokens = Some out /\
    shape out = [b; n; heads * hdim] /\
    forall b0 t o, b0 < b -> t < n -> o < heads * hdim ->
      data out [b0; t; o] =
      Ref.encode m (heads * hdim) hdim glu_embed_dim n (token_row tokens b0) t o.
Proof.
  intros (Htok & Hpos & Hls & Hln & Hfin) Hs Hb Hn Hmax Hvalid.
  unfold DalleBartEncoderTorch_forward. rewrite Hs.
  destruct (stack_arange_spec b n Hb) as (pose & -> & Hsp & Hdp).
  destruct (Embedding_forward_spec _ _ _ tokens Htok Hvalid) as (tok & -> & Hst & Hdt).
  destruct (Embedding_forward_spec _ _ _ pose Hpos
              (valid_positions b n max_positions pose Hsp Hdp Hmax))
    as (pos & -> & Hsps & Hdps).
  rewrite Hs in Hst. rewrite Hsp in Hsps. cbn [app] in Hst, Hsps.
  destruct (map2_same Rplus tok pos _ Hst Hsps) as (h0 & -> & Hs0 & Hd0).
  destruct (LayerNorm_forward_spec _ _ h0 [b; n] Hln Hs0) as (h1 & -> & Hs1 & Hd1).
  cbn [app] in Hs1.
  assert (Hsm : shape (torch.not_equal tokens 1) = [b; n]) by exact Hs.
  destruct (run_layers_spec (layers m) heads hdim glu_embed_dim b n h1
              (torch.not_equal tokens 1) Hls Hb Hn Hs1 Hsm) as (h2 & -> & Hs2 & Hd2).
  destruct (LayerNorm_forward_spec _ _ h2 [b; n] Hfin Hs2) as (h3 & -> & Hs3 & Hd3).
  cbn [app] in Hs3.
  eexists. split; [reflexivity|]. split; [exact Hs3|].
  intros b0 t o Hb0 Ht Ho.
  rewrite (Hd3 [b0; t] o : data h3 [b0; t; o] = _). unfold Ref.encode.
  destruct Hfin as (Hnf & _). destruct Hln as (Hnl & _).
  apply layer_norm_ext with (n := heads * hdim); [assumption | | assumption].
  intros c Hc. cbn [app]. rewrite Hd2 by assumption.
  apply encoder_layers_ext; try assumption.
  intros t' c' Ht' Hc'. unfold hidden_row.
  rewrite (Hd1 [b0; t'] c' : data h1 [b0; t'; c'] = _).
  apply layer_norm_ext with (n := heads * hdim); [assumption | | assumption].
  intros k Hk. cbn [app]. rewrite Hd0 by inb.
  rewrite (Hdt [b0; t'] k : data tok [b0; t'; k] = _).
  rewrite (Hdps [b0; t'] k : data pos [b0; t'; k] = _).
  rewrite Hdp, Nat2Z.id. reflexivity.
Qed.

(** ** Softmax over a masked row *)






(** * The claims *)

(** C4.  GLUTorch.forward returns, for every position of its input, the
    gated feed-forward block of section 4.2 applied to that position:
    LayerNorm, two bias-free projections A and B of the normalized input
    into [glu_embed_dim], GELU on A only, the product of the activated A
    with the raw B, a second LayerNorm over [glu_embed_dim], and a third
    bias-free projection back to [embed_dim]. *)
Theorem C4_glu_forward_is_gated_feed_forward (m : GLUTorch)
    (embed_dim glu_embed_dim : nat) (z : tensor R) (pre : list nat) :
  glu_ok embed_dim glu_embed_dim m -> shape z = pre ++ [embed_dim] ->
  exists out,
    GLUTorch_forward m z = Some out /\
    shape out = pre ++ [embed_dim] /\
    forall ipre o, in_bounds pre ipre = true -> o < embed_dim ->
      let x := fun i => data z (ipre ++ [i]) in
      let normalized := Ref.layer_norm (ln0 m) x in
      let branch_a := Ref.linear (fc0 m) embed_dim normalized in
      let branch_b := Ref.linear (fc1 m) embed_dim normalized in
      let gated := fun j => (nn.gelu (branch_a j) * branch_b j)%R in
      let normalized2 := Ref.layer_norm (ln1 m) gated in
      data out (ipre ++ [o]) = Ref.linear (fc2 m) glu_embed_dim normalized2 o.
Proof.
  intros Hm Hz.
  destruct (GLUTorch_forward_spec m embed_dim glu_embed_dim z pre Hm Hz)
    as (out & Hf & Hs & Hd).
  exists out. split; [exact Hf|]. split; [congruence|].
  intros ipre o Hi _. cbv zeta. now rewrite Hd.
Qed.

Lemma C4_witness :
  exists out,
    GLUTorch_forward Example.glu Example.hidden = Some out /\
    shape out = [1; 4] ++ [8] /\
    forall ipre o, in_bounds [1; 4] ipre = true -> o < 8 ->
      let x := fun i => data Example.hidden (ipre ++ [i]) in
      let normalized := Ref.layer_norm (ln0 Example.glu) x in
      let branch_a := Ref.linear (fc0 Example.glu) 8 normalized in
      let branch_b := Ref.linear (fc1 Example.glu) 8 normalized in
      let gated := fun j => (nn.gelu (branch_a j) * branch_b j)%R in
      let normalized2 := Ref.layer_norm (ln1 Example.glu) gated in
      data out (ipre ++ [o]) = Ref.linear (fc2 Example.glu) 16 normalized2 o.
Proof.
  apply (C4_glu_forward_is_gated_feed_forward Example.glu 8 16 Example.hidden [1; 4]).
  - repeat split; reflexivity.
  - reflexivity.
Defined.

(** C8.  GLUTorch.forward and AttentionTorch.forward preserve shape: on a
    valid input the call returns, and the returned tensor has the shape
    of the input (for attention, the common shape
    [batch, embed_dim, 1, seq_len] of keys, values and queries). *)
Theorem C8_shape_preserving (g : GLUTorch) (embed_dim glu_embed_dim : nat)
    (z : tensor R) (pre : list nat)
    (a : AttentionTorch) (heads hdim b n : nat)
    (keys values queries : tensor R) (mask : tensor bool) :
  glu_ok embed_dim glu_embed_dim g -> shape z = pre ++ [embed_dim] ->
  attention_ok heads hdim a -> 0 < b -> 0 < n ->
  shape keys = [b; heads * hdim; 1; n] ->
  shape values = [b; heads * hdim; 1; n] ->
  shape queries = [b; heads * hdim; 1; n] ->
  shape mask = [b; n] ->
  (exists out, GLUTorch_forward g z = Some out /\ shape out = shape z) /\
  (exists out, AttentionTorch_forward a keys values queries mask = Some out /\
               shape out = shape keys /\ shape out = shape values /\
               shape out = shape queries).
Proof.
  intros Hg Hz Ha Hb Hn Hk Hv Hq Hm. split.
  - destruct (GLUTorch_forward_spec g embed_dim glu_embed_dim z pre Hg Hz)
      as (out & Hf & Hs & _).
    exists out. split; assumption.
  - destruct (AttentionTorch_run_spec a heads hdim b n keys values queries mask
                Ha Hb Hn Hk Hv Hq Hm) as (l & Hrun & (_ & _ & _ & _ & Hs) & _).
    exists (returned l). unfold AttentionTorch_forward. rewrite Hrun.
    split; [reflexivity|]. repeat split; congruence.
Qed.

Lemma C8_witness :
  (exists out, GLUTorch_forward Example.glu Example.hidden = Some out /\
               shape out = shape Example.hidden) /\
  (exists out, AttentionTorch_forward Example.attention Example.projected
                 Example.projected Example.projected Example.mask = Some out /\
               shape out = shape Example.projected /\
               shape out = shape Example.projected /\
               shape out = shape Example.projected).
Proof.
  apply (C8_shape_preserving Example.glu 8 16 Example.hidden [1; 4]
           Example.attention 2 4 1 4).
  - repeat split; reflexivity.
  - reflexivity.
  - repeat split; try reflexivity; lia.
  - lia.
  - lia.
  - reflexivity.
  - reflexivity.
  - reflexivity.
  - reflexivity.
Defined.

(** C3.  EncoderLayerTorch.forward computes the layer of section 4.4:
    pre-attention LayerNorm of the input; self-attention whose queries,
    keys and values are projections of that one normalized input;
    post-attention LayerNorm; the input added back; then the gated
    feed-forward block applied to that sum, and the sum added to the
    block's output. *)
Theorem C3_encoder_layer_forward (m : EncoderLayerTorch)
    (heads hdim glu_embed_dim b n : nat) (x : tensor R) (mask : tensor bool) :
  layer_ok heads hdim glu_embed_dim m -> 0 < b -> 0 < n ->
  shape x = [b; n; heads * hdim] -> shape mask = [b; n] ->
  exists out,
    EncoderLayerTorch_forward m x mask = Some out /\
    shape out = [b; n; heads * hdim] /\
    forall b0 t o, b0 < b -> t < n -> o < heads * hdim ->
      let embed_dim := heads * hdim in
      let input := hidden_row x b0 in
      let normalized := fun i => Ref.layer_norm (pre_self_attn_layer_norm m) (input i) in
      let keys := Ref.project (k_proj (self_attn m)) embed_dim normalized in
      let values := Ref.project (v_proj (self_attn m)) embed_dim normalized in
      let queries := Ref.project (q_proj (self_attn m)) embed_dim normalized in
      let attended :=
        Ref.attention (self_attn m) embed_dim hdim n (mask_row mask b0)
          keys values queries in
      let attended := fun i => Ref.layer_norm (self_attn_layer_norm m) (attended i) in
      let first := fun i c => (input i c + attended i c)%R in
      data out [b0; t; o] =
      (first t o + Ref.gated_feed_forward (glu m) embed_dim glu_embed_dim (first t) o)%R.
Proof.
  intros Hm Hb Hn Hx Hmask.
  destruct (EncoderLayerTorch_forward_spec m heads hdim glu_embed_dim b n x mask
              Hm Hb Hn Hx Hmask) as (out & Hf & Hs & Hd).
  exists out. split; [exact Hf|]. split; [exact Hs|].
  intros b0 t o Hb0 Ht Ho. cbv zeta. now rewrite Hd.
Qed.

Lemma C3_witness :
  exists out,
    EncoderLayerTorch_forward Example.layer Example.hidden Example.mask = Some out /\
    shape out = [1; 4; 2 * 4] /\
    forall b0 t o, b0 < 1 -> t < 4 -> o < 2 * 4 ->
      let embed_dim := 2 * 4 in
      let m := Example.layer in
      let input := hidden_row Example.hidden b0 in
      let normalized := fun i => Ref.layer_norm (pre_self_attn_layer_norm m) (input i) in
      let keys := Ref.project (k_proj (self_attn m)) embed_dim normalized in
      let values := Ref.project (v_proj (self_attn m)) embed_dim normalized in
      let queries := Ref.project (q_proj (self_attn m)) embed_dim normalized in
      let attended :=
        Ref.attention (self_attn m) embed_dim 4 4 (mask_row Example.mask b0)
          keys values queries in
      let attended := fun i => Ref.layer_norm (self_attn_layer_norm m) (attended i) in
      let first := fun i c => (input i c + attended i c)%R in
      data out [b0; t; o] =
      (first t o + Ref.gated_feed_forward (glu m) embed_dim 16 (first t) o)%R.
Proof.
  apply (C3_encoder_layer_forward Example.layer 2 4 16 1 4 Example.hidden Example.mask).
  - repeat split; try reflexivity; lia.
  - lia.
  - lia.
  - reflexivity.
  - reflexivity.
Defined.

(** C2.  DalleBartEncoderTorch.forward computes the pipeline of section
    4.5 on every row of the batch: the mask is [token id <> 1], the
    positions are [0, seq_len) on every row, the hidden state is the sum
    of the token and the position embedding, the embedding LayerNorm is
    applied, then the layers in their order, each with the same mask,
    then the final LayerNorm; the result has shape
    [batch, seq_len, embed_dim]. *)
Theorem C2_encoder_forward_pipeline (m : DalleBartEncoderTorch)
    (heads hdim glu_embed_dim vocab max_positions b n : nat) (tokens : tensor Z) :
  encoder_ok heads hdim glu_embed_dim vocab max_positions m ->
  shape tokens = [b; n] -> 0 < b -> 0 < n -> n <= max_positions ->
  valid_tokens vocab tokens = true ->
  exists out,
    DalleBartEncoderTorch_forward m tokens = Some out /\
    shape out = [b; n; heads * hdim] /\
    forall b0 t o, b0 < b -> t < n -> o < heads * hdim ->
      let embed_dim := heads * hdim in
      let mask := fun j => negb (data tokens [b0; j] =? 1)%Z in
      let positions := fun t : nat => t in
      let hidden := fun t o =>
        (data (nn.emb_weight (embed_tokens m)) [Z.to_nat (data tokens [b0; t]); o]
         + data (nn.emb_weight (embed_positions m)) [positions t; o])%R in
      let hidden := fun t => Ref.layer_norm (layernorm_embedding m) (hidden t) in
      let hidden :=
        Ref.encoder_layers (layers m) embed_dim hdim glu_embed_dim n mask hidden in
      data out [b0; t; o] = Ref.layer_norm (final_ln m) (hidden t) o.
Proof.
  intros Hm Hs Hb Hn Hmax Hv.
  destruct (DalleBartEncoderTorch_forward_spec m heads hdim glu_embed_dim vocab
              max_positions b n tokens Hm Hs Hb Hn Hmax Hv) as (out & Hf & Hso & Hd).
  exists out. split; [exact Hf|]. split; [exact Hso|].
  intros b0 t o Hb0 Ht Ho. cbv zeta. now rewrite Hd.
Qed.

Lemma C2_witness :
  exists out,
    DalleBartEncoderTorch_forward Example.encoder Example.tokens = Some out /\
    shape out = [1; 4; 2 * 4] /\
    forall b0 t o, b0 < 1 -> t < 4 -> o < 2 * 4 ->
      let m := Example.encoder in
      let embed_dim := 2 * 4 in
      let mask := fun j => negb (data Example.tokens [b0; j] =? 1)%Z in
      let positions := fun t : nat => t in
      let hidden := fun t o =>
        (data (nn.emb_weight (embed_tokens m)) [Z.to_nat (data Example.tokens [b0; t]); o]
         + data (nn.emb_weight (embed_positions m)) [positions t; o])%R in
      let hidden := fun t => Ref.layer_norm (layernorm_embedding m) (hidden t) in
      let hidden := Ref.encoder_layers (layers m) embed_dim 4 16 4 mask hidden in
      data out [b0; t; o] = Ref.layer_norm (final_ln m) (hidden t) o.
Proof.
  apply (C2_encoder_forward_pipeline Example.encoder 2 4 16 16 8 1 4 Example.tokens).
  - repeat split; try reflexivity.
    repeat constructor; try reflexivity; lia.
  - reflexivity.
  - lia.
  - lia.
  - lia.
  - reflexivity.
Defined.







(** ** A single, unmasked position *)





(** ** Construction, and a head count that does not divide *)

Ltac zguard :=
  repeat match goal with
  | |- context [(0 <=? ?z)%Z] => rewrite (proj2 (Z.leb_le 0 z)) by lia
  end; cbn [andb guard].

Lemma AttentionTorch_init_some (heads embed : Z) (ps : params) :
  (0 <= embed)%Z -> heads <> 0%Z ->
  exists a,
    AttentionTorch_init heads embed ps = Some a /\
    head_count a = heads /\ head_dim a = (embed / heads)%Z /\
    conv_ok (Z.to_nat embed) (Z.to_nat embed) (k_proj a).
Proof.
  intros He Hh. unfold AttentionTorch_init, Py.floordiv, nn.new_Conv2d_1x1.
  replace (heads =? 0)%Z with false by (symmetry; apply Z.eqb_neq; exact Hh).
  zguard. eexists. split; [reflexivity|]. repeat split.
Qed.

Lemma AttentionTorch_init_zero (embed : Z) (ps : params) :
  AttentionTorch_init 0 embed ps = None.
Proof. reflexivity. Qed.

Lemma EncoderLayerTorch_init_some (embed heads glu_embed : Z) (ps : params) :
  (0 <= embed)%Z -> (0 <= glu_embed)%Z -> heads <> 0%Z ->
  exists l,
    EncoderLayerTorch_init embed heads glu_embed ps = Some l /\
    head_count (self_attn l) = heads /\
    head_dim (self_attn l) = (embed / heads)%Z /\
    conv_ok (Z.to_nat embed) (Z.to_nat embed) (k_proj (self_attn l)).
Proof.
  intros He Hg Hh. unfold EncoderLayerTorch_init, EncoderSelfAttentionTorch_init.
  destruct (AttentionTorch_init_some heads embed (sub "self_attn" ps) He Hh)
    as (a & -> & H1 & H2 & H3).
  unfold GLUTorch_init, nn.new_LayerNorm, nn.new_Linear. zguard.
  eexists. split; [reflexivity|]. cbn [self_attn]. auto.
Qed.

Lemma EncoderLayerTorch_init_zero (embed glu_embed : Z) (ps : params) :
  EncoderLayerTorch_init embed 0 glu_embed ps = None.
Proof.
  unfold EncoderLayerTorch_init, EncoderSelfAttentionTorch_init.
  rewrite AttentionTorch_init_zero.
  destruct (nn.new_LayerNorm embed _ _); reflexivity.
Qed.

Lemma comprehension_some {A B} (f : A -> option B) (P : B -> Prop) (xs : list A) :
  (forall x, exists y, f x = Some y /\ P y) ->
  exists ys, comprehension f xs = Some ys /\ Forall P ys /\ length ys = length xs.
Proof.
  intros Hf. induction xs as [|x xs (ys & E & HP & Hl)]; simpl.
  - exists []. auto.
  - destruct (Hf x) as (y & -> & Hy). rewrite E.
    exists (y :: ys). simpl. auto.
Qed.

(** With a head count that does not divide the channels, the keys cannot
    be split into heads: self-attention raises on every input. *)
Lemma EncoderSelfAttentionTorch_forward_none (a : EncoderSelfAttentionTorch)
    (heads embed : nat) (x : tensor R) (mask : tensor bool) :
  head_count a = Z.of_nat heads -> embed mod heads <> 0 ->
  conv_ok embed embed (k_proj a) ->
  EncoderSelfAttentionTorch_forward a x mask = None.
Proof.
  intros Hh Hmod Hk. unfold EncoderSelfAttentionTorch_forward.
  destruct (torch.transpose 1 2 x) as [x1|]; [|reflexivity].
  destruct (torch.unsqueeze 2 x1) as [x2|] eqn:E2; [|reflexivity].
  destruct (nn.Conv2d_forward (k_proj a) x2) as [keys|] eqn:Ek; [|reflexivity].
  destruct (nn.Conv2d_forward (v_proj a) x2) as [values|]; [|reflexivity].
  destruct (nn.Conv2d_forward (q_proj a) x2) as [queries|]; [|reflexivity].
  unfold torch.unsqueeze in E2.
  destruct (guard (2 <=? rank x1)); [|discriminate].
  injection E2 as E2. subst x2.
  unfold nn.Conv2d_forward in Ek. red in Hk. rewrite Hk in Ek. cbn [shape] in Ek.
  destruct (shape x1) as [|xb [|xc [|xw [|? ?]]]]; cbn [insert_at] in Ek;
    try discriminate.
  destruct (guard _); [|discriminate].
  injection Ek as Ek. subst keys.
  unfold AttentionTorch_forward, AttentionTorch_run. cbn [shape nth_error].
  unfold torch.transpose at 1.
  cbn [rank shape length Nat.ltb Nat.leb andb guard swap_dims nth upd firstn map app].
  unfold torch.reshape at 1. cbn [shape]. rewrite Hh.
  change [Z.of_nat xb; Z.of_nat xw; Z.of_nat heads; (-1)%Z]
    with (map Z.of_nat [xb; xw; heads] ++ [(-1)%Z]).
  rewrite infer_shape_last_eq. cbn [numel fold_right].
  destruct (xb * (xw * (heads * 1)) =? 0) eqn:E0; [reflexivity|].
  apply Nat.eqb_neq in E0.
  destruct (xb * (xw * (1 * (embed * 1))) mod (xb * (xw * (heads * 1))) =? 0) eqn:Em;
    [|reflexivity].
  exfalso. apply Nat.eqb_eq in Em. apply Nat.Div0.mod_divides in Em as (c & Ec).
  apply Hmod. apply Nat.Div0.mod_divides. exists c.
  assert (Hpos : 0 < xb * xw) by nia. nia.
Qed.

Lemma EncoderLayerTorch_forward_none (l : EncoderLayerTorch)
    (heads embed : nat) (x : tensor R) (mask : tensor bool) :
  head_count (self_attn l) = Z.of_nat heads -> embed mod heads <> 0 ->
  conv_ok embed embed (k_proj (self_attn l)) ->
  EncoderLayerTorch_forward l x mask = None.
Proof.
  intros Hh Hmod Hk. unfold EncoderLayerTorch_forward.
  destruct (nn.LayerNorm_forward (pre_self_attn_layer_norm l) x); [|reflexivity].
  now rewrite (EncoderSelfAttentionTorch_forward_none _ heads embed).
Qed.

Lemma DalleBartEncoderTorch_forward_none (m : DalleBartEncoderTorch)
    (l : EncoderLayerTorch) (ls : list EncoderLayerTorch)
    (heads embed : nat) (tokens : tensor Z) :
  layers m = l :: ls ->
  head_count (self_attn l) = Z.of_nat heads -> embed mod heads <> 0 ->
  conv_ok embed embed (k_proj (self_attn l)) ->
  DalleBartEncoderTorch_forward m tokens = None.
Proof.
  intros Hl Hh Hmod Hk. unfold DalleBartEncoderTorch_forward.
  destruct (shape tokens) as [|b [|n [|? ?]]]; try reflexivity.
  destruct (torch.stack _); [|reflexivity].
  destruct (nn.Embedding_forward (embed_tokens m) tokens); [|reflexivity].
  destruct (nn.Embedding_forward (embed_positions m) _); [|reflexivity].
  destruct (torch.map2 _ _ _); [|reflexivity].
  destruct (nn.LayerNorm_forward (layernorm_embedding m) _); [|reflexivity].
  rewrite Hl. cbn [run_layers].
  now rewrite (EncoderLayerTorch_forward_none l heads embed).
Qed.

Lemma DalleBartEncoderTorch_init_zero_heads
    (layer_count embed vocab positions glu_embed : Z) (ps : params) :
  (0 < layer_count)%Z ->
  DalleBartEncoderTorch_init layer_count embed 0 vocab positions glu_embed ps = None.
Proof.
  intros HL. unfold DalleBartEncoderTorch_init, Py.range.
  destruct (nn.new_Embedding vocab embed _); [|reflexivity].
  destruct (nn.new_Embedding positions embed _); [|reflexivity].
  destruct (Z.to_nat layer_count) as [|k] eqn:E; [lia|].
  cbn [seq comprehension]. now rewrite EncoderLayerTorch_init_zero.
Qed.

Lemma DalleBartEncoderTorch_init_some
    (layer_count embed heads vocab positions glu_embed : Z) (ps : params) :
  (0 <= embed)%Z -> (0 <= vocab)%Z -> (0 <= positions)%Z -> (0 <= glu_embed)%Z ->
  heads <> 0%Z ->
  exists m,
    DalleBartEncoderTorch_init layer_count embed heads vocab positions glu_embed ps
      = Some m /\
    length (layers m) = Z.to_nat layer_count /\
    Forall (fun l => head_count (self_attn l) = heads /\
                     head_dim (self_attn l) = (embed / heads)%Z /\
                     conv_ok (Z.to_nat embed) (Z.to_nat embed) (k_proj (self_attn l)))
           (layers m).
Proof.
  intros He Hv Hp Hg Hh. unfold DalleBartEncoderTorch_init.
  unfold nn.new_Embedding, nn.new_LayerNorm. zguard.
  destruct (comprehension_some
              (fun i => EncoderLayerTorch_init embed heads glu_embed
                          (sub (layer_name i) ps))
              (fun l => head_count (self_attn l) = heads /\
                        head_dim (self_attn l) = (embed / heads)%Z /\
                        conv_ok (Z.to_nat embed) (Z.to_nat embed) (k_proj (self_attn l)))
              (Py.range layer_count))
    as (ls & -> & HP & Hlen).
  { intros i. now apply EncoderLayerTorch_init_some. }
  eexists. split; [reflexivity|]. cbn [layers]. split; [|exact HP].
  rewrite Hlen. unfold Py.range. apply length_seq.
Qed.

Lemma GLUTorch_init_negative (count_in_out count_middle : Z) (ps : params) :
  (count_middle < 0)%Z -> GLUTorch_init count_in_out count_middle ps = None.
Proof.
  intros Hneg. unfold GLUTorch_init.
  destruct (nn.new_LayerNorm count_in_out _ _); [|reflexivity].
  unfold nn.new_LayerNorm.
  replace (0 <=? count_middle)%Z with false by (symmetry; apply Z.leb_gt; exact Hneg).
  reflexivity.
Qed.

Lemma EncoderLayerTorch_init_negative_glu (embed heads glu_embed : Z) (ps : params) :
  (glu_embed < 0)%Z -> EncoderLayerTorch_init embed heads glu_embed ps = None.
Proof.
  intros Hneg. unfold EncoderLayerTorch_init.
  destruct (nn.new_LayerNorm embed _ _); [|reflexivity].
  destruct (EncoderSelfAttentionTorch_init heads embed _); [|reflexivity].
  destruct (nn.new_LayerNorm embed _ _); [|reflexivity].
  now rewrite GLUTorch_init_negative.
Qed.

Lemma new_Embedding_negative (num dim : Z) (w : list nat -> R) :
  (num < 0 \/ dim < 0)%Z -> nn.new_Embedding num dim w = None.
Proof.
  intros Hneg. unfold nn.new_Embedding.
  replace ((0 <=? num)%Z && (0 <=? dim)%Z) with false; [reflexivity|].
  symmetry. apply andb_false_iff. rewrite !Z.leb_gt. exact Hneg.
Qed.

(** What construction refuses: a negative size, and a layer with no
    heads or with a negative middle width. *)
Lemma DalleBartEncoderTorch_init_refuses
    (layer_count embed heads vocab positions glu_embed : Z) (ps : params) :
  (embed < 0 \/ vocab < 0 \/ positions < 0 \/
   (0 < layer_count /\ (heads = 0 \/ glu_embed < 0)))%Z ->
  DalleBartEncoderTorch_init layer_count embed heads vocab positions glu_embed ps = None.
Proof.
  intros Hbad.
  destruct (Z_lt_le_dec embed 0) as [He|He];
    [unfold DalleBartEncoderTorch_init; rewrite new_Embedding_negative by lia;
     reflexivity|].
  destruct (Z_lt_le_dec vocab 0) as [Hv|Hv];
    [unfold DalleBartEncoderTorch_init; rewrite new_Embedding_negative by lia;
     reflexivity|].
  destruct (Z_lt_le_dec positions 0) as [Hp|Hp].
  { unfold DalleBartEncoderTorch_init.
    destruct (nn.new_Embedding vocab embed _); [|reflexivity].
    rewrite new_Embedding_negative by lia. reflexivity. }
  destruct Hbad as [?|[?|[?|(HL & Hbad)]]]; try lia.
  destruct Hbad as [->|Hg]; [now apply DalleBartEncoderTorch_init_zero_heads|].
  unfold DalleBartEncoderTorch_init, Py.range.
  destruct (nn.new_Embedding vocab embed _); [|reflexivity].
  destruct (nn.new_Embedding positions embed _); [|reflexivity].
  destruct (Z.to_nat layer_count) as [|k] eqn:E; [lia|].
  cbn [seq comprehension]. now rewrite EncoderLayerTorch_init_negative_glu.
Qed.

(** C6, counterexample.  Two heads do not divide five channels, and the
    encoder is constructed all the same; so it is with a negative head
    count and with no layers at all. *)
Lemma C6_counterexample :
  ((5 mod 2 <> 0)%Z /\
   exists m, DalleBartEncoderTorch_init 1 5 2 16 8 16 Example.initial = Some m) /\
  (exists m, DalleBartEncoderTorch_init 1 8 (-2) 16 8 16 Example.initial = Some m) /\
  (exists m, DalleBartEncoderTorch_init 0 8 2 16 8 16 Example.initial = Some m).
Proof.
  split; [split; [discriminate|]|split].
  - destruct (DalleBartEncoderTorch_init_some 1 5 2 16 8 16 Example.initial)
      as (m & Hm & _); try lia.
    now exists m.
  - destruct (DalleBartEncoderTorch_init_some 1 8 (-2) 16 8 16 Example.initial)
      as (m & Hm & _); try lia.
    now exists m.
  - destruct (DalleBartEncoderTorch_init_some 0 8 2 16 8 16 Example.initial)
      as (m & Hm & _); try lia.
    now exists m.
Qed.

(** C6, as amended.  Construction of the encoder fails, before any
    forward call can be made, for a negative embed_count,
    text_vocab_count or text_token_count and, when a layer is built, for
    a head count of zero (the integer division raises) or a negative
    glu_embed_count.  It does not check that the head count divides the
    channels: whenever construction returns an encoder for a positive
    head count that does not divide embed_count and at least one layer,
    its attention modules have
    [head_dim = floor(embed_count / head_count)] and it is every forward
    call that raises. *)
Theorem C6_construction_refuses_sizes_not_divisibility
    (layer_count embed heads vocab positions glu_embed : Z) (ps : params) :
  ((embed < 0 \/ vocab < 0 \/ positions < 0 \/
    (0 < layer_count /\ (heads = 0 \/ glu_embed < 0)))%Z ->
   DalleBartEncoderTorch_init layer_count embed heads vocab positions glu_embed ps
     = None) /\
  (forall m,
     DalleBartEncoderTorch_init layer_count embed heads vocab positions glu_embed ps
       = Some m ->
     (0 < heads)%Z -> (embed mod heads <> 0)%Z -> (0 < layer_count)%Z ->
     (forall l, In l (layers m) -> head_dim (self_attn l) = (embed / heads)%Z) /\
     forall tokens, DalleBartEncoderTorch_forward m tokens = None).
Proof.
  split; [apply DalleBartEncoderTorch_init_refuses|].
  intros m Hm Hh Hmod HL.
  assert (Hsizes : (0 <= embed /\ 0 <= vocab /\ 0 <= positions /\ 0 <= glu_embed)%Z).
  { destruct (Z_lt_le_dec embed 0) as [?|?];
      [rewrite DalleBartEncoderTorch_init_refuses in Hm by lia; discriminate|].
    destruct (Z_lt_le_dec vocab 0) as [?|?];
      [rewrite DalleBartEncoderTorch_init_refuses in Hm by lia; discriminate|].
    destruct (Z_lt_le_dec positions 0) as [?|?];
      [rewrite DalleBartEncoderTorch_init_refuses in Hm by lia; discriminate|].
    destruct (Z_lt_le_dec glu_embed 0) as [?|?];
      [rewrite DalleBartEncoderTorch_init_refuses in Hm by lia; discriminate|].
    lia. }
  destruct Hsizes as (He & Hv & Hp & Hg).
  destruct (DalleBartEncoderTorch_init_some layer_count embed heads vocab
              positions glu_embed ps He Hv Hp Hg ltac:(lia)) as (m' & Hm' & Hlen & HP).
  rewrite Hm in Hm'. injection Hm' as <-. split.
  - intros l Hl. rewrite Forall_forall in HP. now apply HP.
  - intros tokens. destruct (layers m) as [|l ls] eqn:El; [simpl in Hlen; lia|].
    apply Forall_inv in HP as (Hc & _ & Hk).
    apply (DalleBartEncoderTorch_forward_none m l ls (Z.to_nat heads) (Z.to_nat embed));
      try assumption.
    + rewrite Hc. now rewrite Z2Nat.id by lia.
    + intros E. apply Hmod.
      rewrite <- (Z2Nat.id embed), <- (Z2Nat.id heads) by lia.
      rewrite <- Nat2Z.inj_mod, E. reflexivity.
Qed.

Lemma C6_witness :
  (forall l, In l (layers Example.odd_encoder) ->
     head_dim (self_attn l) = (5 / 2)%Z) /\
  forall tokens, DalleBartEncoderTorch_forward Example.odd_encoder tokens = None.
Proof.
  apply (proj2 (C6_construction_refuses_sizes_not_divisibility
                  1 5 2 16 8 16 Example.initial) Example.odd_encoder).
  - reflexivity.
  - lia.
  - discriminate.
  - lia.
Defined.

(** * Further properties of the code *)

(** ** Attention over keys of another length

    [AttentionTorch.forward] takes keys, values and queries separately:
    the keys and values may cover [nk] positions and the queries [nq]. *)

Lemma AttentionTorch_run_cross (m : AttentionTorch) (heads hdim b nk nq : nat)
    (keys values queries : tensor R) (mask : tensor bool) :
  attention_ok heads hdim m -> 0 < b -> 0 < nk -> 0 < nq ->
  shape keys = [b; heads * hdim; 1; nk] ->
  shape values = [b; heads * hdim; 1; nk] ->
  shape queries = [b; heads * hdim; 1; nq] ->
  shape mask = [b; nk] ->
  exists l,
    AttentionTorch_run m keys values queries mask = Some l /\
    (shape (probabilities l) = [b; nk; heads; nq] /\
     shape (returned l) = [b; heads * hdim; 1; nq]) /\
    (forall b0 j h i, b0 < b -> j < nk -> h < heads -> i < nq ->
       data (probabilities l) [b0; j; h; i] =
         Ref.prob hdim nk (mask_row mask b0)
           (channels_first queries b0) (channels_first keys b0) h i j) /\
    (forall b0 ch i, b0 < b -> ch < heads * hdim -> i < nq ->
       data (returned l) [b0; ch; 0; i] =
         Ref.attention m (heads * hdim) hdim nk (mask_row mask b0)
           (channels_first keys b0) (channels_first values b0)
           (channels_first queries b0) i ch).
Proof.
  intros (HH & Hd & Hhc & Hhd & Hec & Hk & Hv & Hq & Ho) Hb Hnk Hnq Hsk Hsv Hsq Hsm.
  unfold AttentionTorch_run. rewrite Hsk. cbn [nth_error].
  destruct (transpose_1_3_spec keys _ _ _ _ Hsk) as (k1 & -> & Hsk1 & Hdk1).
  rewrite Hsk1, Hhc, Hhd, Hec. cbn [firstn map app].
  destruct (reshape_last_spec k1 _ [b; nk; heads] hdim Hsk1) as (k2 & Ek2 & Hsk2 & Hdk2);
    [cbn [numel fold_right]; ring | cbn [numel fold_right]; nia |].
  cbn [map app] in Ek2. rewrite Ek2. clear Ek2. cbn [app] in Hsk2, Hdk2.
  destruct (reshape_last_spec values _ [b; heads; hdim] nk Hsv) as (v1 & Ev1 & Hsv1 & Hdv1);
    [cbn [numel fold_right]; ring | cbn [numel fold_right]; nia |].
  cbn [map app] in Ev1. rewrite Ev1. clear Ev1. cbn [app] in Hsv1, Hdv1.
  destruct (transpose_1_2_spec v1 _ _ _ _ Hsv1) as (v2 & -> & Hsv2 & Hdv2).
  destruct (reshape_last_spec queries _ [b; heads; hdim] nq Hsq) as (q1 & Eq1 & Hsq1 & Hdq1);
    [cbn [numel fold_right]; ring | cbn [numel fold_right]; nia |].
  cbn [map app] in Eq1. rewrite Eq1. clear Eq1. cbn [app] in Hsq1, Hdq1.
  destruct (transpose_1_2_spec q1 _ _ _ _ Hsq1) as (q2 & -> & Hsq2 & Hdq2).
  destruct (where_mask_spec mask (Fin 0) NegInf _ _ Hsm) as (bias & -> & Hsb & Hdb).
  destruct (einsum_bchq_bkhc_bkhq_spec
              (tmap (fun x => (x / pow_half (Z.of_nat hdim))%R) q2) k2
              b hdim heads nq nk Hsq2 Hsk2) as (w0 & -> & Hsw0 & Hdw0).
  destruct (index_cc_NN_spec bias _ _ Hsb) as (bias4 & -> & Hsb4 & Hdb4).
  destruct (imap2_bias_spec eadd (tmap Fin w0) bias4 b nk heads nq Hsw0 Hsb4)
    as (w1 & -> & Hsw1 & Hdw1).
  destruct (softmax_1_spec w1 _ _ _ _ Hsw1) as (w2 & -> & Hsw2 & Hdw2).
  destruct (einsum_bkhq_bchk_bchq_spec w2 v2 b hdim heads nq nk Hsw2 Hsv2)
    as (h0 & -> & Hsh0 & Hdh0).
  destruct (transpose_1_2_spec h0 _ _ _ _ Hsh0) as (h1 & -> & Hsh1 & Hdh1).
  destruct (reshape_last_spec h1 _ [b; heads * hdim; 1] nq Hsh1) as (h2 & Eh2 & Hsh2 & Hdh2);
    [cbn [numel fold_right]; ring | cbn [numel fold_right]; nia |].
  cbn [map app] in Eh2. change (Z.of_nat 1) with 1%Z in Eh2. rewrite Eh2. clear Eh2.
  cbn [app] in Hsh2, Hdh2.
  destruct (Conv2d_forward_spec (out_proj m) h2 _ _ _ _ _ Ho Hsh2 ltac:(lia) ltac:(lia)) as (h3 & -> & Hsh3 & Hdh3).
  eexists. split; [reflexivity|]. cbn [probabilities returned].
  split; [split; assumption|].
  assert (Ebias : forall b0 j h i, b0 < b -> j < nk -> h < heads -> i < nq ->
            data w1 [b0; j; h; i] =
            Ref.masked (mask_row mask b0)
              (Ref.score hdim (channels_first queries b0) (channels_first keys b0) h i) j).
  { intros b0 j h i Hb0 Hj Hh Hi. rewrite Hdw1 by assumption. cbn [tmap data].
    rewrite Hdw0, Hdb4, Hdb by assumption.
    replace (rsum hdim _) with
      (Ref.score hdim (channels_first queries b0) (channels_first keys b0) h i j).
    - unfold Ref.masked, mask_row.
      destruct (data mask [b0; j]); simpl; [now rewrite Rplus_0_r | reflexivity].
    - unfold Ref.score, Ref.dot, Ref.head, channels_first, Rdiv.
      rewrite <- rsum_scal_r. apply rsum_ext. intros c Hc. cbn [tmap data].
      rewrite Hdq2, Hdq1, reindex_values, Hdk2, reindex_keys, Hdk1 by assumption.
      rewrite pow_half_of_nat. unfold Rdiv. ring. }
  assert (Eprob : forall b0 j h i, b0 < b -> j < nk -> h < heads -> i < nq ->
            data w2 [b0; j; h; i] =
            Ref.prob hdim nk (mask_row mask b0)
              (channels_first queries b0) (channels_first keys b0) h i j).
  { intros b0 j h i Hb0 Hj Hh Hi. rewrite Hdw2. unfold Ref.prob, Ref.softmax.
    rewrite Ebias by assumption. f_equal. apply rsum_ext. intros j' Hj'.
    now rewrite Ebias. }
  split; [exact Eprob|].
  intros b0 ch i Hb0 Hch Hi.
  rewrite Hdh3. unfold Ref.attention, Ref.project. apply rsum_ext.
  intros c Hc. f_equal.
  assert (Hm : c mod hdim < hdim) by (apply Nat.mod_upper_bound; lia).
  assert (Hq' : c / hdim < heads) by (apply Nat.Div0.div_lt_upper_bound; lia).
  rewrite Hdh2, reindex_hidden, Hdh1, Hdh0 by assumption.
  unfold Ref.attend. apply rsum_ext. intros j Hj.
  rewrite Eprob, Hdv2, Hdv1, reindex_values by assumption.
  unfold channels_first.
  replace (c / hdim * hdim + c mod hdim) with c
    by (rewrite (Nat.div_mod_eq c hdim) at 1; lia).
  reflexivity.
Qed.

(** X1.  AttentionTorch.forward accepts keys and values that cover
    another number of positions than the queries (cross attention): the
    mask then has one entry per key position, the result has the shape
    of the queries, and its entry for query position [i] is the output
    projection of the attention of query [i] over the [nk] keys. *)
Theorem X1_cross_attention_follows_queries (m : AttentionTorch)
    (heads hdim b nk nq : nat)
    (keys values queries : tensor R) (mask : tensor bool) :
  attention_ok heads hdim m -> 0 < b -> 0 < nk -> 0 < nq ->
  shape keys = [b; heads * hdim; 1; nk] ->
  shape values = [b; heads * hdim; 1; nk] ->
  shape queries = [b; heads * hdim; 1; nq] ->
  shape mask = [b; nk] ->
  exists out,
    AttentionTorch_forward m keys values queries mask = Some out /\
    shape out = shape queries /\
    forall b0 ch i, b0 < b -> ch < heads * hdim -> i < nq ->
      data out [b0; ch; 0; i] =
      Ref.project (out_proj m) (heads * hdim)
        (Ref.attend hdim nk (mask_row mask b0) (channels_first queries b0)
           (channels_first keys b0) (channels_first values b0)) i ch.
Proof.
  intros Hm Hb Hnk Hnq Hk Hv Hq Hmask.
  destruct (AttentionTorch_run_cross m heads hdim b nk nq keys values queries mask
              Hm Hb Hnk Hnq Hk Hv Hq Hmask) as (l & Hrun & (_ & Hs) & _ & Hr).
  exists (returned l). unfold AttentionTorch_forward. rewrite Hrun.
  split; [reflexivity|]. split; [congruence|].
  intros b0 ch i Hb0 Hch Hi. now rewrite Hr.
Qed.

Lemma X1_witness :
  exists out,
    AttentionTorch_forward Example.attention Example.projected Example.projected
      Example.queries3 Example.mask = Some out /\
    shape out = shape Example.queries3 /\
    forall b0 ch i, b0 < 1 -> ch < 2 * 4 -> i < 3 ->
      data out [b0; ch; 0; i] =
      Ref.project (out_proj Example.attention) (2 * 4)
        (Ref.attend 4 4 (mask_row Example.mask b0)
           (channels_first Example.queries3 b0)
           (channels_first Example.projected b0)
           (channels_first Example.projected b0)) i ch.
Proof.
  apply (X1_cross_attention_follows_queries Example.attention 2 4 1 4 3).
  - repeat split; try reflexivity; lia.
  - lia.
  - lia.
  - lia.
  - reflexivity.
  - reflexivity.
  - reflexivity.
  - reflexivity.
Defined.

(** ** The layout self-attention returns *)

(** X4.  EncoderSelfAttentionTorch.forward takes a hidden state
    [batch, seq_len, embed] and returns the channel-first layout
    [batch, embed, 1, seq_len], whose entry [b0, ch, 0, i] is the
    self-attention of position [i], channel [ch]; the
    [transpose(1, 3).squeeze(2)] of EncoderLayerTorch.forward turns it
    back into the shape of the input, position before channel. *)
Theorem X4_self_attention_layout (m : EncoderSelfAttentionTorch)
    (heads hdim b n : nat) (x : tensor R) (mask : tensor bool) :
  attention_ok heads hdim m -> 0 < b -> 0 < n ->
  shape x = [b; n; heads * hdim] -> shape mask = [b; n] ->
  exists out out1 out2,
    EncoderSelfAttentionTorch_forward m x mask = Some out /\
    torch.transpose 1 3 out = Some out1 /\
    torch.squeeze 2 out1 = Some out2 /\
    shape out = [b; heads * hdim; 1; n] /\
    shape out2 = shape x /\
    forall b0 i ch, b0 < b -> i < n -> ch < heads * hdim ->
      data out [b0; ch; 0; i] =
        Ref.self_attention m (heads * hdim) hdim n (mask_row mask b0)
          (hidden_row x b0) i ch /\
      data out2 [b0; i; ch] = data out [b0; ch; 0; i].
Proof.
  intros Hm Hb Hn Hx Hmask.
  destruct (EncoderSelfAttentionTorch_forward_spec m heads hdim b n x mask
              Hm Hb Hn Hx Hmask) as (out & Hf & Hs & Hd).
  destruct (transpose_1_3_spec out _ _ _ _ Hs) as (out1 & Ht & Hs1 & Hd1).
  destruct (squeeze_2_spec out1 _ _ _ Hs1) as (out2 & Hq & Hs2 & Hd2).
  exists out, out1, out2. repeat (split; [assumption|]).
  split; [congruence|].
  intros b0 i ch Hb0 Hi Hch. split; [now apply Hd|].
  now rewrite Hd2, Hd1.
Qed.

Lemma X4_witness :
  exists out out1 out2,
    EncoderSelfAttentionTorch_forward Example.attention Example.hidden Example.mask
      = Some out /\
    torch.transpose 1 3 out = Some out1 /\
    torch.squeeze 2 out1 = Some out2 /\
    shape out = [1; 2 * 4; 1; 4] /\
    shape out2 = shape Example.hidden /\
    forall b0 i ch, b0 < 1 -> i < 4 -> ch < 2 * 4 ->
      data out [b0; ch; 0; i] =
        Ref.self_attention Example.attention (2 * 4) 4 4 (mask_row Example.mask b0)
          (hidden_row Example.hidden b0) i ch /\
      data out2 [b0; i; ch] = data out [b0; ch; 0; i].
Proof.
  apply (X4_self_attention_layout Example.attention 2 4 1 4).
  - repeat split; try reflexivity; lia.
  - lia.
  - lia.
  - reflexivity.
  - reflexivity.
Defined.

(** ** When the gated feed-forward block returns *)

(** X5.  GLUTorch.forward returns exactly on the tensors whose last axis
    has [count_in_out] entries: a tensor without axes, or with another
    last axis, raises in the first LayerNorm. *)
Theorem X5_glu_returns_iff_last_axis_fits (m : GLUTorch)
    (embed_dim glu_embed_dim : nat) (z : tensor R) :
  glu_ok embed_dim glu_embed_dim m ->
  (GLUTorch_forward m z <> None <-> exists pre, shape z = pre ++ [embed_dim]).
Proof.
  intros Hm. split.
  - intros Hsome. pose proof Hm as ((Hn & Hw & Hb) & _).
    unfold GLUTorch_forward, nn.LayerNorm_forward in Hsome.
    rewrite Hw, Hb, Hn, !shape_eqb_refl in Hsome. cbn [guard] in Hsome.
    unfold rank in Hsome.
    destruct (shape z) as [|d s] eqn:Hs; [now cbn in Hsome|].
    destruct (last (d :: s) 0 =? embed_dim) eqn:E.
    + apply Nat.eqb_eq in E. exists (removelast (d :: s)).
      rewrite <- E. apply app_removelast_last. discriminate.
    + rewrite andb_false_r in Hsome. now cbn in Hsome.
  - intros (pre & Hs).
    destruct (GLUTorch_forward_spec m embed_dim glu_embed_dim z pre Hm Hs)
      as (out & -> & _). discriminate.
Qed.

Lemma X5_witness :
  GLUTorch_forward Example.glu Example.hidden <> None <->
  exists pre, shape Example.hidden = pre ++ [8].
Proof.
  apply (X5_glu_returns_iff_last_axis_fits Example.glu 8 16 Example.hidden).
  repeat split; reflexivity.
Defined.

(** ** When the encoder returns *)

(** A layer cannot attend over zero positions: the 1x1 convolution that
    projects the keys finds no room for its kernel, and raises. *)
Lemma EncoderLayerTorch_forward_empty (l : EncoderLayerTorch)
    (heads hdim glu_embed_dim b : nat) (x : tensor R) (mask : tensor bool) :
  layer_ok heads hdim glu_embed_dim l -> shape x = [b; 0; heads * hdim] ->
  EncoderLayerTorch_forward l x mask = None.
Proof.
  intros (Hpre & Hattn & _) Hx. unfold EncoderLayerTorch_forward.
  destruct (LayerNorm_forward_spec _ _ x [b; 0] Hpre Hx) as (z1 & -> & Hs1 & _).
  cbn [app] in Hs1.
  destruct Hattn as (_ & _ & Hhc & _ & _ & Hk & Hv & Hq & _).
  unfold EncoderSelfAttentionTorch_forward.
  destruct (transpose3_1_2_spec z1 _ _ _ Hs1) as (x1 & -> & Hsx1 & _).
  destruct (unsqueeze_2_spec x1 _ _ _ Hsx1) as (x2 & -> & Hsx2 & _).
  unfold nn.Conv2d_forward at 1. red in Hk. rewrite Hk, Hsx2, Nat.eqb_refl.
  reflexivity.
Qed.

(** X6.  For an encoder with at least one layer,
    DalleBartEncoderTorch.forward returns exactly on a rank-2 token
    tensor with at least one row and at least one position, no more
    positions than the position table has rows, and every id a row of
    the token table; on any other input it raises. *)
Theorem X6_encoder_returns_iff_input_valid (m : DalleBartEncoderTorch)
    (heads hdim glu_embed_dim vocab max_positions : nat) (tokens : tensor Z) :
  encoder_ok heads hdim glu_embed_dim vocab max_positions m ->
  layers m <> [] ->
  (DalleBartEncoderTorch_forward m tokens <> None <->
   exists b n, shape tokens = [b; n] /\ 0 < b /\ 0 < n /\ n <= max_positions /\
               valid_tokens vocab tokens = true).
Proof.
  intros Hm Hls. split.
  - intros Hsome. pose proof Hm as (Htok & Hpos & Hlayers & Hln & _).
    unfold DalleBartEncoderTorch_forward in Hsome.
    destruct (shape tokens) as [|b [|n [|? ?]]] eqn:Hs; try (now elim Hsome).
    destruct b as [|b']; [now elim Hsome|].
    destruct (stack_arange_spec (S b') n ltac:(lia)) as (pose & Hst & Hsp & Hdp).
    rewrite Hst in Hsome.
    destruct (valid_tokens vocab tokens) eqn:Hv.
    2:{ exfalso. apply Hsome. unfold nn.Embedding_forward. red in Htok.
        rewrite Htok. unfold valid_tokens in Hv. now rewrite Hv. }
    destruct (Embedding_forward_spec _ _ _ tokens Htok Hv) as (tok & Etok & Hstk & _).
    rewrite Etok in Hsome.
    destruct (valid_tokens max_positions pose) eqn:Hvp.
    2:{ exfalso. apply Hsome. unfold nn.Embedding_forward. red in Hpos.
        rewrite Hpos. unfold valid_tokens in Hvp. now rewrite Hvp. }
    destruct (Embedding_forward_spec _ _ _ pose Hpos Hvp) as (pos & Epos & Hsps & _).
    rewrite Epos in Hsome. rewrite Hs in Hstk. rewrite Hsp in Hsps.
    cbn [app] in Hstk, Hsps.
    destruct (map2_same Rplus tok pos _ Hstk Hsps) as (h0 & E0 & Hs0 & _).
    rewrite E0 in Hsome.
    destruct (LayerNorm_forward_spec _ _ h0 [S b'; n] Hln Hs0) as (h1 & E1 & Hs1 & _).
    rewrite E1 in Hsome. cbn [app] in Hs1.
    exists (S b'), n. split; [reflexivity|]. split; [lia|].
    assert (Hn : 0 < n).
    { destruct n as [|n']; [|lia]. exfalso. apply Hsome.
      destruct (layers m) as [|l ls] eqn:El; [now elim Hls|].
      apply Forall_inv in Hlayers. cbn [run_layers].
      now rewrite (EncoderLayerTorch_forward_empty l heads hdim glu_embed_dim (S b')). }
    split; [exact Hn|]. split; [|reflexivity].
    unfold valid_tokens in Hvp. rewrite tall_spec in Hvp.
    specialize (Hvp [0; n - 1]). cbn [tmap shape data] in Hvp.
    rewrite Hsp, Hdp in Hvp.
    assert (Hin : in_bounds [S b'; n] [0; n - 1] = true) by inb.
    apply Hvp in Hin. apply andb_prop in Hin as [_ Hin].
    apply Z.ltb_lt in Hin. lia.
  - intros (b & n & Hs & Hb & Hn & Hmax & Hv).
    destruct (DalleBartEncoderTorch_forward_spec m heads hdim glu_embed_dim vocab
                max_positions b n tokens Hm Hs Hb Hn Hmax Hv) as (out & -> & _).
    discriminate.
Qed.

Lemma X6_witness :
  DalleBartEncoderTorch_forward Example.encoder Example.tokens <> None <->
  exists b n, shape Example.tokens = [b; n] /\ 0 < b /\ 0 < n /\ n <= 8 /\
              valid_tokens 16 Example.tokens = true.
Proof.
  apply (X6_encoder_returns_iff_input_valid Example.encoder 2 4 16 16 8 Example.tokens).
  - repeat split; try reflexivity.
    repeat constructor; try reflexivity; lia.
  - discriminate.
Defined.

(** ** What the constructors build *)

Lemma AttentionTorch_init_ok (heads hdim : nat) (ps : params) :
  0 < heads -> 0 < hdim ->
  exists a,
    AttentionTorch_init (Z.of_nat heads) (Z.of_nat (heads * hdim)) ps = Some a /\
    attention_ok heads hdim a.
Proof.
  intros Hh Hd. unfold AttentionTorch_init, Py.floordiv, nn.new_Conv2d_1x1.
  replace (Z.of_nat heads =? 0)%Z with false by (symmetry; apply Z.eqb_neq; lia).
  zguard. eexists. split; [reflexivity|].
  unfold attention_ok, conv_ok. cbn [head_count head_dim embed_count k_proj v_proj
    q_proj out_proj nn.conv_weight shape].
  rewrite Nat2Z.id. repeat split; try assumption.
  rewrite Nat2Z.inj_mul, Z.mul_comm. apply Z.div_mul. lia.
Qed.

Lemma GLUTorch_init_ok (embed_dim glu_embed_dim : nat) (ps : params) :
  exists g,
    GLUTorch_init (Z.of_nat embed_dim) (Z.of_nat glu_embed_dim) ps = Some g /\
    glu_ok embed_dim glu_embed_dim g.
Proof.
  unfold GLUTorch_init, nn.new_LayerNorm, nn.new_Linear. zguard.
  eexists. split; [reflexivity|].
  unfold glu_ok, ln_ok, fc_ok. cbn. rewrite !Nat2Z.id. repeat split.
Qed.

Lemma EncoderLayerTorch_init_ok (heads hdim glu_embed_dim : nat) (ps : params) :
  0 < heads -> 0 < hdim ->
  exists l,
    EncoderLayerTorch_init (Z.of_nat (heads * hdim)) (Z.of_nat heads)
      (Z.of_nat glu_embed_dim) ps = Some l /\
    layer_ok heads hdim glu_embed_dim l.
Proof.
  intros Hh Hd. unfold EncoderLayerTorch_init, EncoderSelfAttentionTorch_init.
  destruct (AttentionTorch_init_ok heads hdim (sub "self_attn" ps) Hh Hd) as (a & -> & Ha).
  destruct (GLUTorch_init_ok (heads * hdim) glu_embed_dim (sub "glu" ps)) as (g & -> & Hg).
  unfold nn.new_LayerNorm. zguard. eexists. split; [reflexivity|].
  unfold layer_ok, ln_ok. cbn. rewrite !Nat2Z.id.
  split; [repeat split|]. split; [exact Ha|]. split; [repeat split | exact Hg].
Qed.

Lemma DalleBartEncoderTorch_init_ok
    (layer_count : Z) (heads hdim vocab max_positions glu_embed_dim : nat)
    (ps : params) :
  0 < heads -> 0 < hdim ->
  exists m,
    DalleBartEncoderTorch_init layer_count (Z.of_nat (heads * hdim)) (Z.of_nat heads)
      (Z.of_nat vocab) (Z.of_nat max_positions) (Z.of_nat glu_embed_dim) ps = Some m /\
    encoder_ok heads hdim glu_embed_dim vocab max_positions m /\
    length (layers m) = Z.to_nat layer_count.
Proof.
  intros Hh Hd. unfold DalleBartEncoderTorch_init.
  unfold nn.new_Embedding, nn.new_LayerNorm. zguard.
  destruct (comprehension_some
              (fun i => EncoderLayerTorch_init (Z.of_nat (heads * hdim)) (Z.of_nat heads)
                          (Z.of_nat glu_embed_dim) (sub (layer_name i) ps))
              (layer_ok heads hdim glu_embed_dim)
              (Py.range layer_count))
    as (ls & -> & HP & Hlen).
  { intros i. now apply EncoderLayerTorch_init_ok. }
  eexists. split; [reflexivity|]. split.
  - unfold encoder_ok, emb_ok, ln_ok. cbn. rewrite !Nat2Z.id. repeat split. exact HP.
  - cbn [layers]. rewrite Hlen. unfold Py.range. apply length_seq.
Qed.

(** X7.  An encoder constructed with positive sizes and a head count
    that divides embed_count has [max(layer_count, 0)] layers and
    accepts every valid token batch: forward returns a tensor of shape
    [batch, seq_len, embed_count].  The values the parameters start with
    play no part in this. *)
Theorem X7_constructed_encoder_accepts_valid_tokens
    (layer_count : Z) (heads hdim vocab max_positions glu_embed_dim b n : nat)
    (ps : params) (tokens : tensor Z) :
  0 < heads -> 0 < hdim ->
  shape tokens = [b; n] -> 0 < b -> 0 < n -> n <= max_positions ->
  valid_tokens vocab tokens = true ->
  exists m out,
    DalleBartEncoderTorch_init layer_count (Z.of_nat (heads * hdim)) (Z.of_nat heads)
      (Z.of_nat vocab) (Z.of_nat max_positions) (Z.of_nat glu_embed_dim) ps = Some m /\
    length (layers m) = Z.to_nat layer_count /\
    DalleBartEncoderTorch_forward m tokens = Some out /\
    shape out = [b; n; heads * hdim].
Proof.
  intros Hh Hd Hs Hb Hn Hmax Hv.
  destruct (DalleBartEncoderTorch_init_ok layer_count heads hdim vocab max_positions
              glu_embed_dim ps Hh Hd) as (m & Hinit & Hok & Hlen).
  destruct (DalleBartEncoderTorch_forward_spec m heads hdim glu_embed_dim vocab
              max_positions b n tokens Hok Hs Hb Hn Hmax Hv) as (out & Hf & Hso & _).
  exists m, out. auto.
Qed.

Lemma X7_witness :
  exists m out,
    DalleBartEncoderTorch_init 1 (Z.of_nat (2 * 4)) (Z.of_nat 2)
      (Z.of_nat 16) (Z.of_nat 8) (Z.of_nat 16) Example.initial = Some m /\
    length (layers m) = Z.to_nat 1 /\
    DalleBartEncoderTorch_forward m Example.tokens = Some out /\
    shape out = [1; 4; 2 * 4].
Proof.
  apply (X7_constructed_encoder_accepts_valid_tokens 1 2 4 16 8 16 1 4
           Example.initial Example.tokens).
  - lia.
  - lia.
  - reflexivity.
  - lia.
  - lia.
  - lia.
  - reflexivity.
Defined.

(** ** Head counts the constructor lets through *)

(** X10.  For an attention module constructed with a positive head count
    and a positive number of channels, self-attention on a hidden state
    [batch, seq_len, embed_count] returns exactly when the head count
    divides embed_count. *)
Theorem X10_self_attention_returns_iff_heads_divide
    (heads embed b n : nat) (ps : params) (a : EncoderSelfAttentionTorch)
    (x : tensor R) (mask : tensor bool) :
  0 < heads -> 0 < embed ->
  EncoderSelfAttentionTorch_init (Z.of_nat heads) (Z.of_nat embed) ps = Some a ->
  0 < b -> 0 < n -> shape x = [b; n; embed] -> shape mask = [b; n] ->
  (EncoderSelfAttentionTorch_forward a x mask <> None <-> embed mod heads = 0).
Proof.
  intros Hh He Hinit Hb Hn Hx Hmask. unfold EncoderSelfAttentionTorch_init in Hinit.
  split.
  - intros Hsome. destruct (Nat.eq_dec (embed mod heads) 0) as [|Hmod]; [assumption|].
    exfalso. apply Hsome.
    destruct (AttentionTorch_init_some (Z.of_nat heads) (Z.of_nat embed) ps
                ltac:(lia) ltac:(lia)) as (a' & Ha' & Hc & _ & Hk).
    rewrite Hinit in Ha'. injection Ha' as <-. rewrite Nat2Z.id in Hk.
    now apply (EncoderSelfAttentionTorch_forward_none a heads embed).
  - intros Hmod. apply Nat.Div0.div_exact in Hmod.
    assert (Hd : 0 < embed / heads) by nia.
    rewrite Hmod in Hinit, Hx.
    destruct (AttentionTorch_init_ok heads (embed / heads) ps Hh Hd) as (a' & Ha' & Hok).
    rewrite Hinit in Ha'. injection Ha' as <-.
    destruct (EncoderSelfAttentionTorch_forward_spec a heads (embed / heads) b n x mask
                Hok Hb Hn Hx Hmask) as (out & -> & _).
    discriminate.
Qed.

Lemma X10_witness :
  EncoderSelfAttentionTorch_forward Example.attention0 Example.hidden Example.mask
    <> None <-> 8 mod 2 = 0.
Proof.
  apply (X10_self_attention_returns_iff_heads_divide 2 8 1 4 Example.initial
           Example.attention0 Example.hidden Example.mask).
  - lia.
  - lia.
  - reflexivity.
  - lia.
  - lia.
  - reflexivity.
  - reflexivity.
Defined.

Lemma infer_shape_negative (n a b : nat) (h : Z) :
  (h < 0)%Z ->
  torch.infer_shape n [Z.of_nat a; Z.of_nat b; h; (-1)%Z] = None.
Proof.
  intros Hneg. unfold torch.infer_shape. cbn [existsb].
  replace (Z.of_nat a <? -1)%Z with false by (symmetry; apply Z.ltb_ge; lia).
  replace (Z.of_nat b <? -1)%Z with false by (symmetry; apply Z.ltb_ge; lia).
  destruct (h <? -1)%Z eqn:E; [reflexivity|].
  apply Z.ltb_ge in E. assert (h = (-1)%Z) by lia. subst h.
  cbn [orb negb guard count_occ].
  destruct (Z.eq_dec (Z.of_nat a) (-1)) as [|_]; [lia|].
  destruct (Z.eq_dec (Z.of_nat b) (-1)) as [|_]; [lia|].
  destruct (Z.eq_dec (-1) (-1)) as [_|]; [|contradiction].
  reflexivity.
Qed.

(** X11.  The constructor accepts a negative head count (it only
    divides by it), and the module it returns raises on every forward
    call: the reshape of the keys is asked for a negative size, or for
    two inferred sizes. *)
Theorem X11_negative_head_count_raises_in_forward (heads embed : Z) (ps : params) :
  (heads < 0)%Z -> (0 <= embed)%Z ->
  exists a,
    EncoderSelfAttentionTorch_init heads embed ps = Some a /\
    head_dim a = (embed / heads)%Z /\
    forall x mask, EncoderSelfAttentionTorch_forward a x mask = None.
Proof.
  intros Hneg He. unfold EncoderSelfAttentionTorch_init.
  destruct (AttentionTorch_init_some heads embed ps He ltac:(lia))
    as (a & Ha & Hc & Hhd & Hk).
  exists a. split; [exact Ha|]. split; [exact Hhd|].
  intros x mask. unfold EncoderSelfAttentionTorch_forward.
  destruct (torch.transpose 1 2 x) as [x1|]; [|reflexivity].
  destruct (torch.unsqueeze 2 x1) as [x2|]; [|reflexivity].
  destruct (nn.Conv2d_forward (k_proj a) x2) as [keys|] eqn:Ek; [|reflexivity].
  destruct (nn.Conv2d_forward (v_proj a) x2) as [values|]; [|reflexivity].
  destruct (nn.Conv2d_forward (q_proj a) x2) as [queries|]; [|reflexivity].
  unfold nn.Conv2d_forward in Ek. red in Hk. rewrite Hk in Ek.
  destruct (shape x2) as [|xb [|xc [|xh [|xw [|? ?]]]]]; try discriminate.
  destruct (guard _); [|discriminate].
  injection Ek as Ek. subst keys.
  unfold AttentionTorch_forward, AttentionTorch_run. cbn [shape nth_error].
  unfold torch.transpose at 1.
  cbn [rank shape length Nat.ltb Nat.leb andb guard swap_dims nth upd firstn map app].
  unfold torch.reshape at 1. cbn [shape]. rewrite Hc.
  now rewrite infer_shape_negative.
Qed.

Lemma X11_witness :
  exists a,
    EncoderSelfAttentionTorch_init (-2) 8 Example.initial = Some a /\
    head_dim a = (8 / -2)%Z /\
    forall x mask, EncoderSelfAttentionTorch_forward a x mask = None.
Proof.
  apply (X11_negative_head_count_raises_in_forward (-2) 8 Example.initial); lia.
Defined.

(** ** A mask of the wrong length *)

(** X12.  A mask whose rows have neither one entry per key position nor
    a single entry cannot be added to the scores: AttentionTorch.forward
    raises at [attention_weights += attention_bias]. *)
Theorem X12_mask_length_mismatch_raises (m : AttentionTorch)
    (heads hdim b nk nq n' : nat)
    (keys values queries : tensor R) (mask : tensor bool) :
  attention_ok heads hdim m -> 0 < b -> 0 < nk -> 0 < nq ->
  shape keys = [b; heads * hdim; 1; nk] ->
  shape values = [b; heads * hdim; 1; nk] ->
  shape queries = [b; heads * hdim; 1; nq] ->
  shape mask = [b; n'] -> n' <> nk -> n' <> 1 ->
  AttentionTorch_forward m keys values queries mask = None.
Proof.
  intros (HH & Hd & Hhc & Hhd & Hec & _) Hb Hnk Hnq Hsk Hsv Hsq Hsm Hne Hne1.
  unfold AttentionTorch_forward, AttentionTorch_run. rewrite Hsk. cbn [nth_error].
  destruct (transpose_1_3_spec keys _ _ _ _ Hsk) as (k1 & -> & Hsk1 & _).
  rewrite Hsk1, Hhc, Hhd, Hec. cbn [firstn map app].
  destruct (reshape_last_spec k1 _ [b; nk; heads] hdim Hsk1) as (k2 & Ek2 & Hsk2 & _);
    [cbn [numel fold_right]; ring | cbn [numel fold_right]; nia |].
  cbn [map app] in Ek2. rewrite Ek2. clear Ek2. cbn [app] in Hsk2.
  destruct (reshape_last_spec values _ [b; heads; hdim] nk Hsv) as (v1 & Ev1 & Hsv1 & _);
    [cbn [numel fold_right]; ring | cbn [numel fold_right]; nia |].
  cbn [map app] in Ev1. rewrite Ev1. clear Ev1. cbn [app] in Hsv1.
  destruct (transpose_1_2_spec v1 _ _ _ _ Hsv1) as (v2 & -> & _).
  destruct (reshape_last_spec queries _ [b; heads; hdim] nq Hsq) as (q1 & Eq1 & Hsq1 & _);
    [cbn [numel fold_right]; ring | cbn [numel fold_right]; nia |].
  cbn [map app] in Eq1. rewrite Eq1. clear Eq1. cbn [app] in Hsq1.
  destruct (transpose_1_2_spec q1 _ _ _ _ Hsq1) as (q2 & -> & Hsq2 & _).
  destruct (where_mask_spec mask (Fin 0) NegInf _ _ Hsm) as (bias & -> & Hsb & _).
  destruct (einsum_bchq_bkhc_bkhq_spec
              (tmap (fun x => (x / pow_half (Z.of_nat hdim))%R) q2) k2
              b hdim heads nq nk Hsq2 Hsk2) as (w0 & -> & Hsw0 & _).
  destruct (index_cc_NN_spec bias _ _ Hsb) as (bias4 & -> & Hsb4 & _).
  unfold torch.imap2, torch.map2, torch.broadcast_shapes.
  cbn [tmap shape]. rewrite Hsw0, Hsb4. cbn [rev app torch.bshape_rev].
  rewrite !bdim_1_r. unfold torch.bdim at 1.
  replace (nk =? n') with false by (symmetry; apply Nat.eqb_neq; lia).
  replace (n' =? 1) with false by (symmetry; apply Nat.eqb_neq; lia).
  destruct (nk =? 1) eqn:E1; [|reflexivity].
  rewrite bdim_refl. cbn [rev app shape shape_eqb guard].
  replace (n' =? nk) with false by (symmetry; apply Nat.eqb_neq; lia).
  rewrite andb_false_r. reflexivity.
Qed.

Lemma X12_witness :
  AttentionTorch_forward Example.attention Example.projected Example.projected
    Example.queries3 (mkTensor [1; 3] (fun _ => true)) = None.
Proof.
  apply (X12_mask_length_mismatch_raises Example.attention 2 4 1 4 3 3).
  - repeat split; try reflexivity; lia.
  - lia.
  - lia.
  - lia.
  - reflexivity.
  - reflexivity.
  - reflexivity.
  - reflexivity.
  - lia.
  - lia.
Defined.
